(** * Qmighty: a sequential queue of LAMMPS simulations

    A shallow embedding of [qmighty.py] (classes [Process] and [Qmighty]) and
    the properties of its job discovery, queue construction and run loop.

    Conventions of the embedding.
    - A Python [str] is a [string]; one [ascii] stands for one code point
      below 256.
    - A Python [int] is a [Z]; a Python [float] is a rational [Q], with exact
      arithmetic; a [float] read from a file, which may be not-a-number or
      an infinity, is a [data_point].
    - A Python [dict] is an association list in insertion order, the order in
      which [dict.items()] iterates.
    - An exception is a value of [exn]; a call that may raise returns a
      [result].
    - The operating system (directory listings, the clock, the launch of an
      external program, the life of its error stream, the log reader) is a
      record of oracles, [world]. *)

From Stdlib Require Import String Ascii List ZArith QArith Qround Bool Lia Lqa FinFun.
Import ListNotations.
Close Scope Q_scope.
Open Scope string_scope.

Set Implicit Arguments.

(** ** Python strings *)

Module PyStr.

(** [s.startswith(pre)] *)
Fixpoint startswith (s pre : string) {struct pre} : bool :=
  match pre, s with
  | EmptyString, _ => true
  | String _ _, EmptyString => false
  | String a pre', String b s' => Ascii.eqb a b && startswith s' pre'
  end.

(** [s.endswith(c)] for a one-character [c] *)
Fixpoint endswith_char (s : string) (c : ascii) : bool :=
  match s with
  | EmptyString => false
  | String a EmptyString => Ascii.eqb a c
  | String _ s' => endswith_char s' c
  end.

(** [sub in s]: [sub] occurs in [s] at some position. *)
Fixpoint contains (s sub : string) : bool :=
  if startswith s sub then true
  else match s with
       | EmptyString => false
       | String _ s' => contains s' sub
       end.

(** The items produced by iterating over a string: its characters, each a
    string of length one. *)
Fixpoint chars (s : string) : list string :=
  match s with
  | EmptyString => []
  | String c s' => String c EmptyString :: chars s'
  end.

(** [str.isspace] on one code point below 256: tab, line feed, vertical
    tab, form feed, carriage return, the four separators 28..31, space,
    next line (133) and no-break space (160). *)
Definition isspace (c : ascii) : bool :=
  let n := nat_of_ascii c in
  ((9 <=? n) && (n <=? 13) || (28 <=? n) && (n <=? 32)
   || (n =? 133) || (n =? 160))%nat.

(** [s.split()] with no separator: the maximal runs of characters that are
    not white space; [tok] is the run being read. *)
Fixpoint split_from (s tok : string) : list string :=
  match s with
  | EmptyString => if (tok =? "") then [] else [tok]
  | String c s' =>
      if isspace c
      then (if (tok =? "") then split_from s' "" else tok :: split_from s' "")
      else split_from s' (tok ++ String c EmptyString)
  end.

Definition split (s : string) : list string := split_from s "".

(** [x in l] for a list of strings *)
Fixpoint mem (x : string) (l : list string) : bool :=
  match l with
  | [] => false
  | y :: l' => if (y =? x) then true else mem x l'
  end.

(** The specification of [in] on strings. *)
Definition substring_of (sub s : string) : Prop :=
  exists a b, s = a ++ sub ++ b.

Definition no_space (s : string) : Prop :=
  forall c, In c (list_ascii_of_string s) -> isspace c = false.

End PyStr.

(** ** Paths *)

(** [os.path.join(a, b)] of [posixpath]: an absolute second component
    replaces the first; otherwise the two are joined with one separator,
    which is left out when the first is empty or already ends with it. *)
Definition path_join (a b : string) : string :=
  if PyStr.startswith b "/" then b
  else if (a =? "") || PyStr.endswith_char a "/" then a ++ b
  else a ++ "/" ++ b.

(** ** Exceptions and results *)

Inductive exn : Type :=
| ValueError (msg : string)
| OSError (filename : string)
| IndexError
| UnboundLocalError
| AttributeError (attr : string)
| OverflowError.

Inductive result (A : Type) : Type :=
| Ret (a : A)
| Raise (e : exn).

Arguments Raise {A} e.

Definition bind {A B} (r : result A) (k : A -> result B) : result B :=
  match r with
  | Ret a => k a
  | Raise e => Raise e
  end.

Notation "x <- r ;; k" := (bind r (fun x => k))
  (at level 61, r at next level, right associativity).

(** ** The file system *)

Record filesystem : Type := {
  (** [os.listdir(p)]: the names in directory [p], or [None] when the call
      raises (no such directory, not a directory, no permission). *)
  listdir : string -> option (list string);
  (** [os.path.isdir(p)] *)
  isdir : string -> bool
}.

Definition os_listdir (fs : filesystem) (p : string) : result (list string) :=
  match listdir fs p with
  | Some names => Ret names
  | None => Raise (OSError p)
  end.

(** ** class Process *)

(** A [subprocess.Popen] object: the command it was started with and its
    [returncode], which stays [None] until [poll] or [wait] collects the
    exit status of the child. *)
Record Popen : Type := {
  args : list string;
  returncode : option Z
}.

Record Process : Type := {
  path : string;
  name : string;
  outfile_name : string;
  elapsed_time : Q;
  remaining_time : Q;
  command : option (list string);   (* set by [set_command] *)
  process : option Popen;           (* set by [spawn_thread] *)
  thread_started : bool;            (* [self.thread], set by [spawn_thread] *)
  complete : bool                   (* set by the run loop *)
}.

(** [Process.__init__], with the default [outfile_name]. *)
Definition Process_init (path name : string) : Process :=
  {| path := path; name := name; outfile_name := "qmighty-out.txt";
     elapsed_time := 0%Q; remaining_time := 0%Q;
     command := None; process := None; thread_started := false;
     complete := false |}.

Definition set_command (p : Process) (cmd : list string) : Process :=
  {| path := path p; name := name p; outfile_name := outfile_name p;
     elapsed_time := elapsed_time p; remaining_time := remaining_time p;
     command := Some cmd; process := process p;
     thread_started := thread_started p; complete := complete p |}.

(** ** class Qmighty *)

(** One value of the queue dictionary: [{"ID": procID, "Process": proc}]. *)
Record entry : Type := {
  ID : Z;
  Proc : Process
}.

Definition dict : Type := list (Z * entry).

(** [d[k] = v]: replaces the value of an existing key in place, appends a
    new key at the end. *)
Fixpoint dict_set (d : dict) (k : Z) (v : entry) : dict :=
  match d with
  | [] => [(k, v)]
  | (k', v') :: d' =>
      if (k' =? k)%Z then (k, v) :: d' else (k', v') :: dict_set d' k v
  end.

Fixpoint dict_get (d : dict) (k : Z) : option entry :=
  match d with
  | [] => None
  | (k', v') :: d' => if (k' =? k)%Z then Some v' else dict_get d' k
  end.

Record Qmighty : Type := {
  root_dir : string;
  update_frequency : Q;
  accepted_suffixes : list string;
  sim_dir_list : list string;
  queue : option dict;              (* set by [init_processes] *)
  num_procs : option Z;             (* set by [init_processes] *)
  id_currently_running : option Z   (* set by [run_process_loop] *)
}.

(** The value given for [add_suffixes]: the signature asks for a list, the
    body only iterates over it, so a string is accepted too. *)
Inductive iterable : Type :=
| PyList (l : list string)
| PyString (s : string).

Definition iter (x : iterable) : list string :=
  match x with
  | PyList l => l
  | PyString s => PyStr.chars s
  end.

(** [Qmighty.add_suffix], on the list of accepted suffixes. *)
Fixpoint add_suffix_loop (accepted suffixes : list string) : list string :=
  match suffixes with
  | [] => accepted
  | suffix :: rest =>
      if negb (PyStr.mem suffix accepted)
      then add_suffix_loop (accepted ++ [suffix]) rest
      else add_suffix_loop accepted rest
  end.

Definition add_suffix (accepted : list string) (suffixes : iterable)
  : list string :=
  add_suffix_loop accepted (iter suffixes).

(** The directory scan of [__init__]. *)
Fixpoint scan_dirs (fs : filesystem) (root : string) (dirs : list string)
  : list string :=
  match dirs with
  | [] => []
  | dir :: rest =>
      if isdir fs (path_join root dir)
      then dir :: scan_dirs fs root rest
      else scan_dirs fs root rest
  end.

(** [Qmighty.__init__] *)
Definition Qmighty_init (fs : filesystem) (root_dir : string)
    (sim_dir_list : option (list string)) (update_frequency : Q)
    (add_suffixes : option iterable) : result Qmighty :=
  let accepted := [".lmp"; ".in"] in
  let accepted :=
    match add_suffixes with
    | Some s => add_suffix accepted s
    | None => accepted
    end in
  dirs <- match sim_dir_list with
          | None =>
              names <- os_listdir fs root_dir ;;
              Ret (scan_dirs fs root_dir names)
          | Some l => Ret l
          end ;;
  Ret {| root_dir := root_dir; update_frequency := update_frequency;
         accepted_suffixes := accepted; sim_dir_list := dirs;
         queue := None; num_procs := None; id_currently_running := None |}.

(** The inner loop of [sanity_check]: some accepted suffix occurs in
    [filename]. *)
Fixpoint suffix_loop (suffixes : list string) (filename : string) : bool :=
  match suffixes with
  | [] => false
  | suffix :: rest =>
      if PyStr.contains filename suffix then true
      else suffix_loop rest filename
  end.

(** The outer loop of [sanity_check]. *)
Fixpoint filename_loop (suffixes filenames : list string) : bool :=
  match filenames with
  | [] => false
  | filename :: rest =>
      if suffix_loop suffixes filename then true
      else filename_loop suffixes rest
  end.

(** [Qmighty.sanity_check] *)
Definition sanity_check (fs : filesystem) (self : Qmighty) (sim_path : string)
  : result bool :=
  filenames <- os_listdir fs sim_path ;;
  Ret (filename_loop (accepted_suffixes self) filenames).

(** The two launch commands of [init_processes]; each is an f-string split
    at white space. *)
Definition cpu_command (sim_path input_filename : string) : list string :=
  PyStr.split ("mpirun -np 4 -wdir " ++ sim_path ++ " lmp -in "
               ++ input_filename).

Definition gpu_command (sim_path input_filename : string) : list string :=
  PyStr.split ("mpirun -n 1 -wdir " ++ sim_path
               ++ " lmp -k on g 1 -sf kk -pk kokkos newton on neigh half -in "
               ++ input_filename).

(** The two [if] statements on [computer] in the loop body; [None] when
    neither binds [command]. *)
Definition choose_command (computer sim_path input_filename : string)
  : option (list string) :=
  let command :=
    if (computer =? "CPU") then Some (cpu_command sim_path input_filename)
    else None in
  if (computer =? "GPU") then Some (gpu_command sim_path input_filename)
  else command.

(** The loop of [init_processes] over [sim_dir_list].  [q] and [n] are
    [self.queue] and [self.num_procs] as the loop has assigned them so far,
    [procID] is its counter.  The value is what the two attributes hold
    when the loop is left, with the exception that leaves it, if any. *)
Fixpoint init_loop (fs : filesystem) (self : Qmighty)
    (computer input_filename : string) (dirs : list string)
    (q : dict) (procID : Z) (n : Z) : dict * Z * option exn :=
  match dirs with
  | [] => (q, n, None)
  | sim_dir :: rest =>
      let sim_path := path_join (root_dir self) sim_dir in
      match sanity_check fs self sim_path with
      | Raise e => (q, n, Some e)
      | Ret ok =>
          if negb ok
          then init_loop fs self computer input_filename rest q procID n
          else
            match choose_command computer sim_path input_filename with
            | None => (q, n, Some UnboundLocalError)
            | Some cmd =>
                let proc := set_command (Process_init sim_path sim_dir) cmd in
                let q := dict_set q procID {| ID := procID; Proc := proc |} in
                init_loop fs self computer input_filename rest q
                          (procID + 1)%Z (n + 1)%Z
            end
      end
  end.

Definition set_queue (self : Qmighty) (q : dict) (n : Z) : Qmighty :=
  {| root_dir := root_dir self; update_frequency := update_frequency self;
     accepted_suffixes := accepted_suffixes self;
     sim_dir_list := sim_dir_list self;
     queue := Some q; num_procs := Some n;
     id_currently_running := id_currently_running self |}.

(** [Qmighty.init_processes], as a call on the object: the object as the
    call leaves it, with the exception that leaves the call, if any.  The
    test of [computer] raises before anything is assigned; the loop assigns
    [self.queue] and [self.num_procs] as it goes, so that an exception
    raised in the loop leaves on the object the jobs queued before it. *)
Definition init_processes_call (fs : filesystem) (self : Qmighty)
    (computer input_filename : string) : Qmighty * option exn :=
  if negb (computer =? "CPU") && negb (computer =? "GPU")
  then (self,
        Some (ValueError ("computer=" ++ computer ++ ", not 'CPU' or 'GPU'")))
  else
    let r := init_loop fs self computer input_filename (sim_dir_list self)
                       [] 100%Z 0%Z in
    (set_queue self (fst (fst r)) (snd (fst r)), snd r).

(** The outcome of the call for the code after it: the object when the
    call returns, the exception when it raises. *)
Definition init_processes (fs : filesystem) (self : Qmighty)
    (computer input_filename : string) : result Qmighty :=
  match init_processes_call fs self computer input_filename with
  | (self', None) => Ret self'
  | (_, Some e) => Raise e
  end.


(** ** Running a job: [Process.update_timings] and [Process.spawn_thread] *)

(** A data point of the log, a floating-point value read from a file: a
    number, not-a-number, or one of the two infinities. *)
Inductive data_point : Type :=
| Num (x : Q)
| NaN
| Inf (negative : bool).

(** What the log reader gives for one sample, that is for
    [lammps_logfile.File(path).get('CPULeft', run_num=-1)]: the call raises,
    it returns [None], or it returns the series of data points. *)
Inductive log_reading : Type :=
| LogRaises
| LogNone
| LogData (xs : list data_point).

(** [xs[-1]], which raises [IndexError] on an empty sequence. *)
Fixpoint last_item (xs : list data_point) : result data_point :=
  match xs with
  | [] => Raise IndexError
  | [x] => Ret x
  | _ :: xs' => last_item xs'
  end.

(** [round(x)] to an integer: to the nearest one, a tie to the even one. *)
Definition py_round (x : Q) : Z :=
  let f := Qfloor x in
  match Qcompare (x - inject_Z f) (1 # 2) with
  | Lt => f
  | Gt => (f + 1)%Z
  | Eq => if Z.even f then f else (f + 1)%Z
  end.

(** [round(x)] of a data point: [ValueError] for not-a-number and
    [OverflowError] for an infinity. *)
Definition round_point (x : data_point) : result Z :=
  match x with
  | Num x => Ret (py_round x)
  | NaN => Raise (ValueError "cannot convert float NaN to integer")
  | Inf _ => Raise OverflowError
  end.

(** [datetime.timedelta(seconds=n)] for an integer [n] is accepted: the
    days of the normalised value are [n // 86400], and the constructor
    raises [OverflowError] when their magnitude exceeds 999999999. *)
Definition timedelta_ok (seconds : Z) : bool :=
  (Z.abs (seconds / 86400) <=? 999999999)%Z.

(** The longest sleep, in seconds: what the clock of the system counts,
    [2^63 - 1] nanoseconds. *)
Definition max_sleep : Q := 9223372036854775807 # 1000000000.

(** [time.sleep(secs)] accepts its argument. *)
Definition sleep_ok (secs : Q) : bool :=
  Qle_bool 0 secs && Qle_bool secs max_sleep.

Definition set_timings (p : Process) (elapsed remaining : Q) : Process :=
  {| path := path p; name := name p; outfile_name := outfile_name p;
     elapsed_time := elapsed; remaining_time := remaining;
     command := command p; process := process p;
     thread_started := thread_started p; complete := complete p |}.

(** [Process.update_timings(t0)], given the reading [t1] of the clock and
    what the log reader gives.  The object is returned as the call leaves
    it, with the exception that leaves the call, if any: [elapsed_time] is
    assigned before the log is read, and only the two calls on the log are
    inside the [try]; the index and [round] come after it. *)
Definition update_timings (self : Process) (t0 t1 : Q) (reading : log_reading)
  : Process * option exn :=
  let self := set_timings self (t1 - t0)%Q (remaining_time self) in
  let remaining_time :=
    match reading with
    | LogData xs => Some xs
    | LogNone => None
    | LogRaises => None      (* except: remaining_time = None *)
    end in
  match remaining_time with
  | None => (set_timings self (elapsed_time self) 0%Q, None)
  | Some xs =>
      match (x <- last_item xs ;; round_point x) with
      | Raise e => (self, Some e)
      | Ret z => (set_timings self (elapsed_time self) (inject_Z z), None)
      end
  end.

Definition set_spawned (p : Process) (po : Popen) : Process :=
  {| path := path p; name := name p; outfile_name := outfile_name p;
     elapsed_time := elapsed_time p; remaining_time := remaining_time p;
     command := command p; process := Some po;
     thread_started := true; complete := complete p |}.

Definition set_complete (p : Process) : Process :=
  {| path := path p; name := name p; outfile_name := outfile_name p;
     elapsed_time := elapsed_time p; remaining_time := remaining_time p;
     command := command p; process := process p;
     thread_started := thread_started p; complete := true |}.

(** A child process has been reaped once its exit status was collected,
    which is when [Popen.returncode] is set. *)
Definition reaped (p : Process) : bool :=
  match process p with
  | Some po => match returncode po with Some _ => true | None => false end
  | None => false
  end.

(** ** The world of a run *)

Record world : Type := {
  files : filesystem;
  (** the n-th reading of [time.time()] *)
  clock : nat -> Q;
  (** [open(file, "w")] succeeds *)
  can_open : string -> bool;
  (** [subprocess.Popen(command, ...)] succeeds *)
  can_exec : list string -> bool;
  (** for the job with a given id: how many calls of
      [process.thread.is_alive()] find the thread that drains the error
      stream alive; [None] when the stream never ends *)
  alive_polls : Z -> option nat;
  (** for the job with a given id: how many of those calls are made while
      the external program itself still runs; [None] when it never exits.
      The run loop cannot tell: it calls neither [poll] nor [wait]. *)
  process_polls : Z -> option nat;
  (** for the job with a given id: what the log reader gives at the k-th
      sample *)
  log : Z -> nat -> log_reading
}.

(** What the run does, in order: its calls to the outside and its output. *)
Inductive event : Type :=
| Clear (n : option Z)                      (* [clear_n_lines(n)] *)
| Open (file : string)                      (* [open(file, "w")] *)
| Spawn (cmd : list string)                 (* [subprocess.Popen(cmd, ...)] *)
| ThreadStart                               (* [self.thread.start()] *)
| Poll (id : Z) (alive : bool)              (* [process.thread.is_alive()] *)
| Sample (id : Z) (elapsed remaining : Q)   (* [process.update_timings(t0)] *)
| Header                                    (* the head line of the table *)
| Row (id : Z) (name : string) (elapsed remaining : Z)
| Sleep (seconds : Q)                       (* [time.sleep(...)] *)
| Join (id : Z)                             (* [process.thread.join()] *)
| NoJobsFound                               (* "Found no LAMMPS input files..." *)
| Summary (n : Z) (hours : Q).              (* "... runs completed. ..." *)

Record state : Type := {
  self : Qmighty;
  reads : nat;            (* readings of the clock so far *)
  trace : list event
}.

(** How a computation ends: with a value, with an exception, or still in
    its loop when the fuel is spent. *)
Inductive ans (A : Type) : Type :=
| Val (a : A)
| Exc (e : exn)
| Spent.

Arguments Exc {A} e.
Arguments Spent {A}.

Definition M (A : Type) : Type := state -> ans A * state.

Definition ret {A} (a : A) : M A := fun s => (Val a, s).

Definition raise {A} (e : exn) : M A := fun s => (Exc e, s).

Definition mbind {A B} (m : M A) (k : A -> M B) : M B :=
  fun s =>
    match m s with
    | (Val a, s') => k a s'
    | (Exc e, s') => (Exc e, s')
    | (Spent, s') => (Spent, s')
    end.

Notation "x <~ m ;; k" := (mbind m (fun x => k))
  (at level 61, m at next level, right associativity).
Notation "m ;;; k" := (mbind m (fun _ => k))
  (at level 61, right associativity).

Definition emit (e : event) : M unit :=
  fun s => (Val tt, {| self := self s; reads := reads s;
                       trace := trace s ++ [e] |}).

Definition modify_self (f : Qmighty -> Qmighty) : M unit :=
  fun s => (Val tt, {| self := f (self s); reads := reads s;
                       trace := trace s |}).

(** [datetime.timedelta(seconds=n)], kept as its number of seconds *)
Definition timedelta (seconds : Z) : M Z :=
  if timedelta_ok seconds then ret seconds else raise OverflowError.

(** [time.sleep(secs)]: [ValueError] for a negative length,
    [OverflowError] for one that is too long. *)
Definition time_sleep (secs : Q) : M unit :=
  if negb (Qle_bool 0 secs)
  then raise (ValueError "sleep length must be non-negative")
  else if negb (Qle_bool secs max_sleep) then raise OverflowError
  else emit (Sleep secs).

(** [for x in l: body(x)] *)
Fixpoint for_each {A} (l : list A) (body : A -> M unit) : M unit :=
  match l with
  | [] => ret tt
  | x :: rest => body x ;;; for_each rest body
  end.

(** Assignment to an attribute of the [Process] object of job [id]: the
    object is shared by the queue, so the queue sees it. *)
Fixpoint update_process (id : Z) (f : Process -> Process) (q : dict) : dict :=
  match q with
  | [] => []
  | (k, v) :: q' =>
      if (k =? id)%Z then (k, {| ID := ID v; Proc := f (Proc v) |}) :: q'
      else (k, v) :: update_process id f q'
  end.

Definition with_queue (f : dict -> dict) (self : Qmighty) : Qmighty :=
  {| root_dir := root_dir self; update_frequency := update_frequency self;
     accepted_suffixes := accepted_suffixes self;
     sim_dir_list := sim_dir_list self;
     queue := option_map f (queue self); num_procs := num_procs self;
     id_currently_running := id_currently_running self |}.

Definition set_running (id : Z) (self : Qmighty) : Qmighty :=
  {| root_dir := root_dir self; update_frequency := update_frequency self;
     accepted_suffixes := accepted_suffixes self;
     sim_dir_list := sim_dir_list self;
     queue := queue self; num_procs := num_procs self;
     id_currently_running := Some id |}.

Section RunLoop.

Variable w : world.

(** [time.time()] *)
Definition time_time : M Q :=
  fun s => (Val (clock w (reads s)),
            {| self := self s; reads := S (reads s); trace := trace s |}).

(** [self.queue] and [self.num_procs], which exist once [init_processes]
    has run. *)
Definition get_queue : M dict :=
  fun s => match queue (self s) with
           | Some q => (Val q, s)
           | None => (Exc (AttributeError "queue"), s)
           end.

Definition get_num_procs : M Z :=
  fun s => match num_procs (self s) with
           | Some n => (Val n, s)
           | None => (Exc (AttributeError "num_procs"), s)
           end.

(** [value['Process']] for the job [id] *)
Definition get_process (id : Z) : M Process :=
  q <~ get_queue ;;
  match dict_get q id with
  | Some e => ret (Proc e)
  | None => raise (AttributeError "Process")
  end.

Definition put_process (id : Z) (p : Process) : M unit :=
  modify_self (with_queue (update_process id (fun _ => p))).

(** [Qmighty.clear_n_lines] *)
Definition clear_n_lines (n : option Z) : M unit := emit (Clear n).

(** [Qmighty.print_progress]: the head line, then for each job the two
    durations, either of which may raise, and the row. *)
Definition print_progress : M unit :=
  n <~ get_num_procs ;;
  clear_n_lines (Some (n + 5)%Z) ;;;
  emit Header ;;;
  q <~ get_queue ;;
  for_each q (fun kv =>
    let process := Proc (snd kv) in
    remaining <~ timedelta (py_round (remaining_time process)) ;;
    elapsed <~ timedelta (py_round (elapsed_time process)) ;;
    emit (Row (fst kv) (name process) elapsed remaining)).

(** [Process.spawn_thread], for the job [id] *)
Definition spawn_thread (id : Z) : M unit :=
  p <~ get_process id ;;
  let file := path_join (path p) (outfile_name p) in
  (if can_open w file then emit (Open file) else raise (OSError file)) ;;;
  match command p with
  | None => raise (AttributeError "command")
  | Some cmd =>
      (if can_exec w cmd then emit (Spawn cmd)
       else raise (OSError (hd "" cmd))) ;;;
      put_process id (set_spawned p {| args := cmd; returncode := None |}) ;;;
      emit ThreadStart
  end.

(** [process.thread.is_alive()]: the [k]-th such call for the job [id] *)
Definition is_alive (id : Z) (k : nat) : M bool :=
  let alive :=
    match alive_polls w id with
    | Some n => (k <? n)%nat
    | None => true
    end in
  emit (Poll id alive) ;;; ret alive.

(** [process.update_timings(t0_proc)]: the [k]-th sample of the job [id] *)
Definition sample (id : Z) (t0 : Q) (k : nat) : M unit :=
  p <~ get_process id ;;
  t1 <~ time_time ;;
  let r := update_timings p t0 t1 (log w id k) in
  put_process id (fst r) ;;;
  match snd r with
  | Some e => raise e
  | None => emit (Sample id (elapsed_time (fst r)) (remaining_time (fst r)))
  end.

(** The [while process.thread.is_alive()] loop; [k] counts the calls of
    [is_alive] made so far, and the value is that count at the end. *)
Fixpoint sample_loop (fuel : nat) (id : Z) (t0 : Q) (k : nat) : M nat :=
  match fuel with
  | O => fun s => (Spent, s)
  | S fuel' =>
      alive <~ is_alive id k ;;
      if alive then
        sample id t0 k ;;;
        print_progress ;;;
        f <~ (fun s => (Val (update_frequency (self s)), s)) ;;
        time_sleep f ;;;
        sample_loop fuel' id t0 (S k)
      else ret (S k)
  end.

(** The body of the [for] loop of [run_process_loop], for one job. *)
Definition supervise (fuel : nat) (id : Z) : M unit :=
  modify_self (set_running id) ;;;
  spawn_thread id ;;;
  t0_proc <~ time_time ;;
  k <~ sample_loop fuel id t0_proc 0 ;;
  p <~ get_process id ;;
  put_process id (set_complete p) ;;;
  alive <~ is_alive id k ;;
  if alive then emit (Join id) else ret tt.

(** [Qmighty.run_process_loop] *)
Definition run_process_loop (fuel : nat) : M unit :=
  modify_self (set_running 0) ;;;
  clear_n_lines None ;;;
  t0_main <~ time_time ;;
  q <~ get_queue ;;
  for_each (map fst q) (supervise fuel) ;;;
  t <~ time_time ;;
  let tfinal_main := (t - t0_main)%Q in
  n <~ get_num_procs ;;
  if (n =? 0)%Z then emit NoJobsFound
  else emit (Summary n (tfinal_main / 3600)%Q).

(** The three statements of the script, after the arguments are parsed:
    build the object, build the queue, run it. *)
Definition script (root_dir : string) (simulation_dir : option (list string))
    (input_format computer : string) (update : Q) (fuel : nat)
  : ans unit * list event :=
  match
    (queue <- Qmighty_init (files w) root_dir simulation_dir update
                           (Some (PyString input_format)) ;;
     init_processes (files w) queue computer input_format)
  with
  | Raise e => (Exc e, [])
  | Ret queue =>
      let r := run_process_loop fuel
                 {| self := queue; reads := 0; trace := [] |} in
      (fst r, trace (snd r))
  end.

End RunLoop.

(** The calls of [is_alive] and the samples of one job, read off a trace. *)
Fixpoint polls (id : Z) (t : list event) : list bool :=
  match t with
  | [] => []
  | Poll id' b :: t' => if (id' =? id)%Z then b :: polls id t' else polls id t'
  | _ :: t' => polls id t'
  end.

Fixpoint samples (id : Z) (t : list event) : list Q :=
  match t with
  | [] => []
  | Sample id' e _ :: t' =>
      if (id' =? id)%Z then e :: samples id t' else samples id t'
  | _ :: t' => samples id t'
  end.

(** The commands launched, read off a trace. *)
Fixpoint launches (t : list event) : list (list string) :=
  match t with
  | [] => []
  | Spawn cmd :: t' => cmd :: launches t'
  | _ :: t' => launches t'
  end.

(** An event of a sample or of the table. *)
Definition is_tick (e : event) : bool :=
  match e with
  | Sample _ _ _ | Header | Row _ _ _ _ | Sleep _ => true
  | _ => false
  end.

(** Each value is less than the next. *)
Fixpoint increasing (l : list Q) : Prop :=
  match l with
  | [] => True
  | x :: l' => match l' with
               | [] => True
               | y :: _ => (x < y)%Q /\ increasing l'
               end
  end.


(** ** Vocabulary of the statements *)

(** The candidate directory [sim_dir] passes [sanity_check]. *)
Definition accepts (fs : filesystem) (self : Qmighty) (sim_dir : string)
  : bool :=
  match sanity_check fs self (path_join (root_dir self) sim_dir) with
  | Ret true => true
  | _ => false
  end.

(** The command of a job for a valid [computer]. *)
Definition command_of (computer input_filename sim_path : string)
  : list string :=
  if (computer =? "GPU") then gpu_command sim_path input_filename
  else cpu_command sim_path input_filename.

(** The queue entry that [init_processes] builds for [sim_dir] under the id
    [procID]. *)
Definition job_entry (self : Qmighty) (computer input_filename : string)
    (procID : Z) (sim_dir : string) : entry :=
  let sim_path := path_join (root_dir self) sim_dir in
  {| ID := procID;
     Proc := set_command (Process_init sim_path sim_dir)
               (command_of computer input_filename sim_path) |}.

(** Consecutive ids from [procID] on, one for each directory, in order. *)
Fixpoint number_jobs (mk : Z -> string -> entry) (procID : Z)
    (dirs : list string) : dict :=
  match dirs with
  | [] => []
  | d :: rest => (procID, mk procID d) :: number_jobs mk (procID + 1)%Z rest
  end.

(** The attributes of the jobs that the run loop never assigns. *)
Definition fixed_part (q : dict)
  : list (Z * (string * string * string * option (list string))) :=
  map (fun kv => (fst kv, (path (Proc (snd kv)), name (Proc (snd kv)),
                           outfile_name (Proc (snd kv)),
                           command (Proc (snd kv))))) q.

(** The log reader gives something that [update_timings] takes without an
    exception: no series, or a series whose last data point is a number. *)
Definition readable (r : log_reading) : bool :=
  match r with
  | LogData xs => match last_item xs with
                  | Ret (Num _) => true
                  | _ => false
                  end
  | _ => true
  end.

(** The log reader gives something that the run loop can use: no series,
    or a series whose last data point is a number that, rounded,
    [timedelta] accepts. *)
Definition usable (r : log_reading) : bool :=
  match r with
  | LogData xs => match last_item xs with
                  | Ret (Num x) => timedelta_ok (py_round x)
                  | _ => false
                  end
  | _ => true
  end.

(** The exception that [update_timings] raises on a reading, if any: that
    of the index on an empty series, or that of [round] on a last data
    point that is not a number. *)
Definition reading_exn (r : log_reading) : option exn :=
  match r with
  | LogData xs => match (x <- last_item xs ;; round_point x) with
                  | Raise e => Some e
                  | Ret _ => None
                  end
  | _ => None
  end.

(** The two times of a job are such that [print_progress] can show them,
    and so for every job of a queue. *)
Definition showable (p : Process) : bool :=
  timedelta_ok (py_round (remaining_time p)) &&
  timedelta_ok (py_round (elapsed_time p)).

Definition showable_queue (q : dict) : bool :=
  forallb (fun kv => showable (Proc (snd kv))) q.

(** The clock of the world [w] stays within what [timedelta] accepts: the
    time between two readings, rounded, is less than 999999999 days. *)
Definition steady (w : world) : Prop :=
  forall i j, timedelta_ok (py_round (clock w j - clock w i)%Q) = true.

(** The state [s] is one in which the table can be shown and the loop can
    sleep: [time.sleep] accepts the update frequency of the object, and
    [timedelta] accepts the times of the jobs of its queue. *)
Definition in_range (s : state) : Prop :=
  sleep_ok (update_frequency (self s)) = true /\
  forall q, queue (self s) = Some q -> showable_queue q = true.

(** The job of entry [kv] starts and ends in the world [w], within the
    fuel: its output file opens, its command starts, its error stream ends
    after fewer than [fuel] polls, and every sample finds a usable log. *)
Definition runs_well (w : world) (fuel : nat) (kv : Z * entry) : Prop :=
  can_open w (path_join (path (Proc (snd kv)))
                        (outfile_name (Proc (snd kv)))) = true /\
  (exists cmd, command (Proc (snd kv)) = Some cmd /\ can_exec w cmd = true) /\
  (exists n, alive_polls w (fst kv) = Some n /\ (n < fuel)%nat /\
             forall k, (k < n)%nat -> usable (log w (fst kv) k) = true).

(** The launch of the job of entry [kv] fails in the world [w]: the output
    file does not open, or the command does not start. *)
Definition launch_fails (w : world) (kv : Z * entry) : Prop :=
  let p := Proc (snd kv) in
  can_open w (path_join (path p) (outfile_name p)) = false \/
  exists cmd, command p = Some cmd /\ can_exec w cmd = false.

(** Two [Process] objects agree on the attributes that the run loop never
    assigns. *)
Definition same_fixed (p p' : Process) : Prop :=
  path p' = path p /\ name p' = name p /\
  outfile_name p' = outfile_name p /\ command p' = command p.

(** The entries of the jobs other than [id]. *)
Definition others (id : Z) (q : dict) : dict :=
  filter (fun kv => negb (fst kv =? id)%Z) q.

(** What [spawn_thread] and the end of the supervision assign, for each
    job. *)
Definition statuses (q : dict) : list (option Popen * bool * bool) :=
  map (fun kv => (process (Proc (snd kv)), thread_started (Proc (snd kv)),
                  complete (Proc (snd kv)))) q.

(** The rows of the table that [print_progress] prints. *)
Definition rows (q : dict) : list event :=
  map (fun kv => Row (fst kv) (name (Proc (snd kv)))
                     (py_round (elapsed_time (Proc (snd kv))))
                     (py_round (remaining_time (Proc (snd kv))))) q.

(** The state with more events at the end of its trace. *)
Definition logged (s : state) (t : list event) : state :=
  {| self := self s; reads := reads s; trace := (trace s ++ t)%list |}.

(** An event of the supervision of a job, as opposed to one of the two
    lines that end a run. *)
Definition job_event (e : event) : bool :=
  match e with
  | NoJobsFound | Summary _ _ => false
  | _ => true
  end.

(** The commands of the jobs of a queue, in order. *)
Definition commands_of (q : dict) : list (list string) :=
  flat_map (fun kv => match command (Proc (snd kv)) with
                      | Some cmd => [cmd]
                      | None => []
                      end) q.

(** The run loop leaves the queue [q] as [q'] and the object [o] as [o']
    when it only assigns timings of the job [id]. *)
Definition timings_only (id : Z) (s s' : state) : Prop :=
  num_procs (self s') = num_procs (self s) /\
  update_frequency (self s') = update_frequency (self s) /\
  exists q q',
    queue (self s) = Some q /\ queue (self s') = Some q' /\
    fixed_part q' = fixed_part q /\ others id q' = others id q /\
    statuses q' = statuses q /\
    (showable_queue q = true -> showable_queue q' = true).

(** Words joined by single spaces, as the f-strings of the two commands
    are. *)
Fixpoint unwords (ws : list string) : string :=
  match ws with
  | [] => ""
  | w :: rest =>
      match rest with
      | [] => w
      | _ :: _ => w ++ String " " (unwords rest)
      end
  end.

(** A word: not empty and without white space. *)
Definition word (s : string) : Prop := PyStr.no_space s /\ s <> "".

Definition wordb (s : string) : bool :=
  negb (s =? "") &&
  forallb (fun c => negb (PyStr.isspace c)) (list_ascii_of_string s).

(** What the [k]-th call of [is_alive] finds for the job [id]. *)
Definition alive_at (w : world) (id : Z) (k : nat) : bool :=
  match alive_polls w id with
  | Some n => (k <? n)%nat
  | None => true
  end.

(** The readings of the clock that the supervision of the jobs of [l]
    makes: for each job, one at its start and one for each sample. *)
Definition clock_reads (w : world) (l : dict) : nat :=
  list_sum (map (fun kv => match alive_polls w (fst kv) with
                           | Some n => S n
                           | None => 0%nat
                           end) l).

(** ** Examples *)

Module Examples.

(** A root with three candidate directories: one with a LAMMPS input
    script, one with a text file only, one whose input file merely has
    [.in] inside its name. *)
Definition fs : filesystem :=
  {| listdir := fun p =>
       if (p =? "./sim1") then Some ["run.lmp"; "data.txt"]
       else if (p =? "./notes") then Some ["readme.txt"]
       else if (p =? "./sim2") then Some ["system.input.bak"]
       else if (p =? "./my sim") then Some ["run.lmp"]
       else if (p =? "./") then Some ["sim1"; "notes"; "sim2"]
       else None;
     isdir := fun _ => true |}.

Definition plain : Qmighty :=
  {| root_dir := "./"; update_frequency := 1%Q;
     accepted_suffixes := [".lmp"; ".in"];
     sim_dir_list := ["sim1"; "notes"; "sim2"];
     queue := None; num_procs := None; id_currently_running := None |}.

Definition spaced : Qmighty :=
  {| root_dir := "./"; update_frequency := 1%Q;
     accepted_suffixes := [".lmp"; ".in"];
     sim_dir_list := ["my sim"];
     queue := None; num_procs := None; id_currently_running := None |}.

(** An object whose list of directories, given by hand, names one that
    does not exist. *)
Definition missing : Qmighty :=
  {| root_dir := "./"; update_frequency := 1%Q;
     accepted_suffixes := [".lmp"; ".in"];
     sim_dir_list := ["sim1"; "gone"; "sim2"];
     queue := None; num_procs := None; id_currently_running := None |}.

(** An object that accepts the suffix [.txt] too. *)
Definition with_txt : Qmighty :=
  {| root_dir := "./"; update_frequency := 1%Q;
     accepted_suffixes := [".lmp"; ".in"; ".txt"];
     sim_dir_list := ["sim1"; "notes"; "sim2"];
     queue := None; num_procs := None; id_currently_running := None |}.

(** The queue that [init_processes] builds from [plain]: [sim1] under 100
    and [sim2] under 101. *)
Definition queued : Qmighty :=
  match init_processes fs plain "CPU" "run.lmp" with
  | Ret q => q
  | Raise _ => plain
  end.

(** A world in which the clock advances by one second at each reading,
    up to a thousand, every launch succeeds, the error stream of job 100 ends
    after two polls and that of the others after one, each program exits
    when its error stream ends, and the log of job 100 has two data
    points. *)
Definition calm : world :=
  {| files := fs;
     clock := fun n => inject_Z (Z.of_nat (Nat.min n 1000));
     can_open := fun _ => true;
     can_exec := fun _ => true;
     alive_polls := fun id => if (id =? 100)%Z then Some 2%nat else Some 1%nat;
     process_polls :=
       fun id => if (id =? 100)%Z then Some 2%nat else Some 1%nat;
     log := fun id _ => if (id =? 100)%Z
                        then LogData [Num 30.4%Q; Num 20.5%Q]
                        else LogRaises |}.

(** The same world without [mpirun]: no command starts. *)
Definition no_mpirun : world :=
  {| files := fs; clock := clock calm;
     can_open := fun _ => true; can_exec := fun _ => false;
     alive_polls := alive_polls calm; process_polls := process_polls calm;
     log := log calm |}.

(** The same world, where the log of job 100 has the head of the table of
    data and no data point yet. *)
Definition empty_log : world :=
  {| files := fs; clock := clock calm;
     can_open := fun _ => true; can_exec := fun _ => true;
     alive_polls := alive_polls calm; process_polls := process_polls calm;
     log := fun _ _ => LogData [] |}.

(** The world [calm] where the error stream of job 101 never ends. *)
Definition hung : world :=
  {| files := fs; clock := clock calm;
     can_open := fun _ => true; can_exec := fun _ => true;
     alive_polls := fun id => if (id =? 101)%Z then None else Some 2%nat;
     process_polls := fun id => if (id =? 101)%Z then None else Some 2%nat;
     log := log calm |}.

(** The world [calm] where the program of job 100 exits before the first
    poll and leaves a child that holds its error stream open for two
    polls. *)
Definition lingering : world :=
  {| files := fs; clock := clock calm;
     can_open := fun _ => true; can_exec := fun _ => true;
     alive_polls := alive_polls calm;
     process_polls := fun _ => Some 0%nat;
     log := log calm |}.

(** The world [calm] where the program of job 100 closes its error stream
    after two polls and runs on for ever. *)
Definition detached : world :=
  {| files := fs; clock := clock calm;
     can_open := fun _ => true; can_exec := fun _ => true;
     alive_polls := alive_polls calm;
     process_polls := fun _ => None;
     log := log calm |}.

(** The world [calm] with a clock that gives the same reading each time,
    as a clock of coarse resolution does for calls close together. *)
Definition frozen : world :=
  {| files := fs; clock := fun _ => 7%Q;
     can_open := fun _ => true; can_exec := fun _ => true;
     alive_polls := alive_polls calm; process_polls := process_polls calm;
     log := log calm |}.

(** The world [calm] where the last data point of each log is
    not-a-number. *)
Definition nan_log : world :=
  {| files := fs; clock := clock calm;
     can_open := fun _ => true; can_exec := fun _ => true;
     alive_polls := alive_polls calm; process_polls := process_polls calm;
     log := fun _ _ => LogData [Num 3%Q; NaN] |}.


Definition start : state := {| self := queued; reads := 0; trace := [] |}.

(** The jobs of [queued], the first one and the ones after it. *)
Definition jobs : dict :=
  match queue queued with
  | Some q => q
  | None => []
  end.

Definition first_job : entry :=
  match jobs with
  | kv :: _ => snd kv
  | [] => {| ID := 0; Proc := Process_init "" "" |}
  end.

Definition later_jobs : dict := tl jobs.

End Examples.

(** ** Two readings of the specification, to be compared with the code *)

(** When the supervision of the job [id] returns, and the loop goes on to
    the next job, the process of the job has been reaped. *)
Definition reaped_on_return (w : world) (fuel : nat) (id : Z) (s : state)
  : Prop :=
  forall s',
    supervise w fuel id s = (Val tt, s') ->
    exists q' e',
      queue (self s') = Some q' /\ dict_get q' id = Some e' /\
      reaped (Proc e') = true.

(** The sampling loop of the job [id] ends exactly when its program does,
    and the elapsed time grows from one sample to the next: where the
    supervision returns, it has taken one sample for each poll made while
    the program ran, and the elapsed times of the samples increase. *)
Definition samples_while_process_runs (w : world) (fuel : nat) (id : Z)
    (s : state) : Prop :=
  forall s' new,
    supervise w fuel id s = (Val tt, s') ->
    trace s' = (trace s ++ new)%list ->
    exists n,
      process_polls w id = Some n /\
      length (samples id new) = n /\ increasing (samples id new).

(** The run goes on after a launch that fails: it ends normally, having
    launched the command [next] of a later job. *)
Definition survives_failed_launch (w : world) (fuel : nat) (s : state)
    (next : list string) : Prop :=
  exists s',
    run_process_loop w fuel s = (Val tt, s') /\
    In next (launches (trace s')).

(** Each sample of the log leaves [update_timings] without an exception. *)
Definition never_raises (reading : log_reading) : Prop :=
  forall p t0 t1, snd (update_timings p t0 t1 reading) = None.

(** ** Facts about strings *)

Section StringFacts.

Lemma startswith_spec (pre s : string) :
  PyStr.startswith s pre = true <-> exists r, s = pre ++ r.
Proof.
  revert s; induction pre as [|a pre IH]; intros s; simpl.
  - split; [intros _; now exists s | reflexivity].
  - destruct s as [|b s].
    + split; [discriminate | intros [r Hr]; discriminate].
    + rewrite andb_true_iff, Ascii.eqb_eq, IH. split.
      * intros [-> [r ->]]. now exists r.
      * intros [r Hr]. injection Hr as -> ->. split; [reflexivity | now exists r].
Qed.

Lemma contains_unfold (s sub : string) :
  PyStr.contains s sub =
  if PyStr.startswith s sub then true
  else match s with
       | EmptyString => false
       | String _ s' => PyStr.contains s' sub
       end.
Proof. destruct s; reflexivity. Qed.

Lemma append_assoc (a b c : string) : (a ++ b) ++ c = a ++ b ++ c.
Proof. induction a as [|x a IH]; simpl; [reflexivity | now rewrite IH]. Qed.

Lemma append_nil_r (a : string) : a ++ "" = a.
Proof. induction a as [|x a IH]; simpl; [reflexivity | now rewrite IH]. Qed.

(** [sub in s] is substring containment. *)
Lemma contains_spec (s sub : string) :
  PyStr.contains s sub = true <-> PyStr.substring_of sub s.
Proof.
  unfold PyStr.substring_of. split.
  - induction s as [|c s IH]; rewrite contains_unfold;
      destruct (PyStr.startswith _ sub) eqn:E; intros H.
    + apply startswith_spec in E as [r ->]. now exists "", r.
    + discriminate.
    + apply startswith_spec in E as [r ->]. now exists "", r.
    + destruct (IH H) as (a & b & ->). now exists (String c a), b.
  - intros (a & b & ->). induction a as [|c a IH]; rewrite contains_unfold.
    + simpl. replace (PyStr.startswith (sub ++ b) sub) with true; [reflexivity|].
      symmetry. apply startswith_spec. now exists b.
    + destruct (PyStr.startswith _ sub); [reflexivity | exact IH].
Qed.

Lemma suffix_loop_spec (suffixes : list string) (filename : string) :
  suffix_loop suffixes filename = true <->
  exists suffix, In suffix suffixes /\ PyStr.substring_of suffix filename.
Proof.
  induction suffixes as [|x l IH]; simpl.
  - split; [discriminate | intros (? & [] & _)].
  - destruct (PyStr.contains filename x) eqn:E.
    + split; [intros _ | reflexivity].
      exists x. split; [now left | now apply contains_spec].
    + rewrite IH. split.
      * intros (y & Hy & Hs). exists y. split; [now right | exact Hs].
      * intros (y & [<- | Hy] & Hs).
        -- apply contains_spec in Hs. congruence.
        -- now exists y.
Qed.

Lemma filename_loop_spec (suffixes filenames : list string) :
  filename_loop suffixes filenames = true <->
  exists filename suffix,
    In filename filenames /\ In suffix suffixes /\
    PyStr.substring_of suffix filename.
Proof.
  induction filenames as [|f l IH]; simpl.
  - split; [discriminate | intros (? & ? & [] & _)].
  - destruct (suffix_loop suffixes f) eqn:E.
    + split; [intros _ | reflexivity].
      apply suffix_loop_spec in E as (x & Hx & Hs).
      exists f, x. repeat split; auto.
    + rewrite IH. split.
      * intros (g & x & Hg & Hx & Hs). exists g, x. repeat split; auto.
      * intros (g & x & [<- | Hg] & Hx & Hs).
        -- assert (suffix_loop suffixes f = true) as E'
             by (apply suffix_loop_spec; now exists x).
           congruence.
        -- now exists g, x.
Qed.

Lemma mem_spec (x : string) (l : list string) :
  PyStr.mem x l = true <-> In x l.
Proof.
  induction l as [|y l IH]; simpl.
  - split; [discriminate | intros []].
  - destruct (String.eqb_spec y x) as [->|N].
    + split; [now left | reflexivity].
    + rewrite IH. split; [now right | intros [E | H]; [contradiction | exact H]].
Qed.

Lemma chars_spec (s x : string) :
  In x (PyStr.chars s) <->
  exists c, In c (list_ascii_of_string s) /\ x = String c EmptyString.
Proof.
  induction s as [|a s IH]; simpl.
  - split; [intros [] | intros (? & [] & _)].
  - rewrite IH. split.
    + intros [<- | (c & Hc & ->)]; [exists a | exists c]; auto.
    + intros (c & [-> | Hc] & ->); [now left | right; now exists c].
Qed.

End StringFacts.

(** ** Facts about [add_suffix] *)

Section AddSuffix.

(** The loop only appends: the list it starts from is a prefix. *)
Lemma add_suffix_loop_extends (suffixes accepted : list string) :
  exists extra,
    add_suffix_loop accepted suffixes = (accepted ++ extra)%list /\
    (forall x, In x extra -> In x suffixes /\ ~ In x accepted).
Proof.
  revert accepted; induction suffixes as [|s l IH]; intros accepted; simpl.
  - exists []. split; [now rewrite app_nil_r | intros ? []].
  - destruct (PyStr.mem s accepted) eqn:E; simpl.
    + destruct (IH accepted) as (extra & -> & Hx).
      exists extra. split; [reflexivity|].
      intros x Hin. destruct (Hx x Hin). auto.
    + destruct (IH (accepted ++ [s])%list) as (extra & -> & Hx).
      exists (s :: extra). split; [now rewrite <- app_assoc|].
      assert (~ In s accepted) as Hs
        by (rewrite <- mem_spec; congruence).
      intros x [<- | Hin]; [auto|].
      destruct (Hx x Hin) as [H1 H2]. split; [auto|].
      intros H. apply H2, in_or_app. now left.
Qed.

(** Every suffix offered is accepted afterwards. *)
Lemma add_suffix_loop_complete (suffixes accepted : list string) (x : string) :
  In x accepted \/ In x suffixes -> In x (add_suffix_loop accepted suffixes).
Proof.
  revert accepted; induction suffixes as [|s l IH]; intros accepted; simpl.
  - intros [H | []]; exact H.
  - intros H. destruct (PyStr.mem s accepted) eqn:E; simpl; apply IH.
    + apply mem_spec in E.
      destruct H as [H | [<- | H]]; auto.
    + destruct H as [H | [<- | H]]; auto; left; apply in_or_app; simpl; auto.
Qed.

(** No suffix is appended twice. *)
Lemma add_suffix_loop_NoDup (suffixes accepted : list string) :
  NoDup accepted -> NoDup (add_suffix_loop accepted suffixes).
Proof.
  revert accepted; induction suffixes as [|s l IH]; intros accepted Hnd; simpl.
  - exact Hnd.
  - destruct (PyStr.mem s accepted) eqn:E; simpl; apply IH; [exact Hnd|].
    assert (~ In s accepted) as Hs by (rewrite <- mem_spec; congruence).
    apply NoDup_app; [exact Hnd | repeat constructor; intros [] |].
    intros y Hy [<- | []]. contradiction.
Qed.

End AddSuffix.

(** ** Facts about [split] *)

Section Split.

Lemma split_from_word (a rest tok : string) :
  PyStr.no_space a ->
  PyStr.split_from (a ++ rest) tok = PyStr.split_from rest (tok ++ a).
Proof.
  revert tok; induction a as [|c a IH]; intros tok Ha; simpl.
  - now rewrite append_nil_r.
  - rewrite (Ha c) by (simpl; auto).
    rewrite IH by (intros x Hx; apply Ha; simpl; auto).
    now rewrite append_assoc.
Qed.

Lemma eqb_empty_false (s : string) : s <> "" -> (s =? "") = false.
Proof. intros H. now apply String.eqb_neq. Qed.

(** A word followed by a space is the next token. *)
Lemma split_from_word_space (a rest : string) :
  PyStr.no_space a -> a <> "" ->
  PyStr.split_from (a ++ String " " rest) "" = a :: PyStr.split_from rest "".
Proof.
  intros Ha Hne. rewrite split_from_word by exact Ha. simpl.
  now rewrite eqb_empty_false.
Qed.

(** A word at the end is the last token. *)
Lemma split_from_last_word (a : string) :
  PyStr.no_space a -> a <> "" -> PyStr.split_from a "" = [a].
Proof.
  intros Ha Hne. rewrite <- (append_nil_r a) at 1.
  rewrite split_from_word by exact Ha. simpl.
  now rewrite eqb_empty_false.
Qed.

Lemma wordb_word (s : string) : wordb s = true -> word s.
Proof.
  unfold wordb, word, PyStr.no_space.
  rewrite andb_true_iff, negb_true_iff, forallb_forall, String.eqb_neq.
  intros [Hne Hc]. split; [|exact Hne].
  intros c Hin. apply negb_true_iff. now apply Hc.
Qed.

(** Splitting words joined by single spaces gives the words back. *)
Lemma split_unwords (ws : list string) :
  Forall word ws -> PyStr.split_from (unwords ws) "" = ws.
Proof.
  induction 1 as [|a ws [Ha Hne] Hws IH]; [reflexivity|].
  destruct ws as [|b ws].
  - now apply split_from_last_word.
  - change (unwords (a :: b :: ws))
      with (a ++ String " " (unwords (b :: ws))).
    rewrite split_from_word_space by assumption. now rewrite IH.
Qed.

End Split.

(** ** Facts about the loop of [init_processes] *)

Section InitLoop.

Variable fs : filesystem.
Variable self : Qmighty.
Variables computer input_filename : string.
Hypothesis valid : computer = "CPU" \/ computer = "GPU".

Lemma choose_command_valid (sim_path : string) :
  choose_command computer sim_path input_filename =
  Some (command_of computer input_filename sim_path).
Proof.
  unfold choose_command, command_of.
  destruct (computer =? "GPU") eqn:G; [reflexivity|].
  destruct (computer =? "CPU") eqn:C; [reflexivity|].
  apply String.eqb_neq in G, C. destruct valid; contradiction.
Qed.

Lemma dict_set_fresh (q : dict) (k : Z) (v : entry) :
  (forall kv, In kv q -> (fst kv < k)%Z) ->
  dict_set q k v = (q ++ [(k, v)])%list.
Proof.
  induction q as [|[k' v'] q IH]; intros H; simpl; [reflexivity|].
  assert (k' < k)%Z as Hlt by (apply (H (k', v')); now left).
  destruct (Z.eqb_spec k' k) as [E|_]; [lia|].
  rewrite IH; [reflexivity|]. intros kv Hin. apply H. now right.
Qed.


Lemma number_jobs_length mk (procID : Z) (dirs : list string) :
  length (number_jobs mk procID dirs) = length dirs.
Proof.
  revert procID; induction dirs as [|d l IH]; intros procID; simpl;
    [reflexivity | now rewrite IH].
Qed.

Lemma accepts_listed (sim_dir : string) :
  listdir fs (path_join (root_dir self) sim_dir) <> None ->
  sanity_check fs self (path_join (root_dir self) sim_dir) =
  Ret (accepts fs self sim_dir).
Proof.
  unfold accepts, sanity_check, os_listdir. intros H.
  destruct (listdir fs _) as [names|]; [simpl | contradiction].
  now destruct (filename_loop _ names).
Qed.

(** The loop appends to the queue one entry for each directory that
    passes [sanity_check], numbered from [procID] on, in order. *)
Lemma init_loop_spec (dirs : list string) (q : dict) (procID n : Z) :
  (forall d, In d dirs ->
             listdir fs (path_join (root_dir self) d) <> None) ->
  (forall kv, In kv q -> (fst kv < procID)%Z) ->
  let new := number_jobs (job_entry self computer input_filename) procID
               (filter (accepts fs self) dirs) in
  init_loop fs self computer input_filename dirs q procID n =
  ((q ++ new)%list, (n + Z.of_nat (length new))%Z, None).
Proof.
  revert q procID n; induction dirs as [|d l IH]; intros q procID n Hl Hq;
    simpl.
  - now rewrite app_nil_r, Z.add_0_r.
  - rewrite accepts_listed by (apply Hl; now left). simpl.
    destruct (accepts fs self d) eqn:E; simpl.
    + rewrite choose_command_valid, dict_set_fresh by exact Hq.
      rewrite IH.
      * rewrite <- app_assoc. simpl. do 2 f_equal. lia.
      * intros x Hx. apply Hl. now right.
      * intros kv Hin. apply in_app_or in Hin as [Hin | [<- | []]].
        -- specialize (Hq kv Hin). lia.
        -- simpl. lia.
    + apply IH; [|exact Hq]. intros x Hx. apply Hl. now right.
Qed.

End InitLoop.

(** ** The queue that [init_processes] returns *)

Section InitResult.

Variable fs : filesystem.
Variable self : Qmighty.
Variables computer input_filename : string.

Lemma seq_keys_NoDup (p : Z) (n : nat) :
  NoDup (map (fun i => (p + Z.of_nat i)%Z) (seq 0 n)).
Proof.
  apply Injective_map_NoDup; [intros a b H; lia | apply seq_NoDup].
Qed.

(** Whatever the directories hold, and however the loop is left, it has
    appended entries under consecutive ids and counted them. *)
Lemma init_loop_keys (dirs : list string) :
  forall (q : dict) (procID n : Z) (q' : dict) (n' : Z) (r : option exn),
    init_loop fs self computer input_filename dirs q procID n = (q', n', r) ->
    (forall kv, In kv q -> (fst kv < procID)%Z) ->
    exists new,
      q' = (q ++ new)%list /\ n' = (n + Z.of_nat (length new))%Z /\
      map fst new =
        map (fun i => (procID + Z.of_nat i)%Z) (seq 0 (length new)).
Proof.
  assert (forall (q : dict) (n : Z),
            q = (q ++ [])%list /\ n = (n + Z.of_nat (@length (Z * entry) []))%Z /\
            forall procID : Z,
              map fst (@nil (Z * entry)) =
              map (fun i => (procID + Z.of_nat i)%Z)
                  (seq 0 (@length (Z * entry) []))) as Stop.
  { intros q n. simpl. now rewrite app_nil_r, Z.add_0_r. }
  induction dirs as [|d l IH]; intros q procID n q' n' r H Hq; simpl in H.
  - injection H as <- <- _. exists []. destruct (Stop q n) as (A & B & C).
    auto.
  - destruct (sanity_check fs self _) as [ok|];
      [|injection H as <- <- _; exists []; destruct (Stop q n) as (A & B & C);
        auto].
    destruct ok; simpl in H; [|now apply IH in H].
    destruct (choose_command _ _ _) as [cmd|];
      [|injection H as <- <- _; exists []; destruct (Stop q n) as (A & B & C);
        auto].
    rewrite dict_set_fresh in H by exact Hq.
    apply IH in H as (new & -> & -> & Hk).
    + eexists (_ :: new). split; [now rewrite <- app_assoc|].
      split; [simpl length; lia|].
      simpl. f_equal; [lia|]. rewrite Hk, <- seq_shift, map_map.
      apply map_ext. intros i. lia.
    + intros kv Hin. apply in_app_or in Hin as [Hin | [<- | []]].
      * specialize (Hq kv Hin). lia.
      * simpl. lia.
Qed.

(** The queue of a successful [init_processes]: distinct ids, counted by
    [num_procs]; the other attributes of the object are as before. *)
Lemma init_processes_queue (self' : Qmighty) :
  init_processes fs self computer input_filename = Ret self' ->
  exists q,
    self' = set_queue self q (Z.of_nat (length q)) /\
    NoDup (map fst q) /\
    map fst q = map (fun i => (100 + Z.of_nat i)%Z) (seq 0 (length q)).
Proof.
  unfold init_processes, init_processes_call.
  destruct (negb _ && negb _); [discriminate|].
  destruct (init_loop _ _ _ _ _ _ _ _) as [[q n] [e|]] eqn:E;
    [discriminate|].
  simpl. intros [= <-].
  apply init_loop_keys in E as (new & -> & -> & Hk); [|intros ? []].
  exists new. simpl. split; [reflexivity|].
  split; [rewrite Hk; apply seq_keys_NoDup | exact Hk].
Qed.

End InitResult.


(** ** Job discovery and queue construction *)


(** C1. For every directory [d], [sanity_check(d)] returns true if and only
    if some file name listed in [d] contains some accepted suffix as a
    substring (containment anywhere in the name, not a match of the
    extension). *)
Theorem sanity_check_substring (fs : filesystem) (self : Qmighty)
    (d : string) (filenames : list string) :
  listdir fs d = Some filenames ->
  exists b,
    sanity_check fs self d = Ret b /\
    (b = true <->
     exists filename suffix,
       In filename filenames /\ In suffix (accepted_suffixes self) /\
       PyStr.substring_of suffix filename).
Proof.
  intros Hd. unfold sanity_check, os_listdir. rewrite Hd. simpl.
  eexists. split; [reflexivity|]. apply filename_loop_spec.
Qed.

Lemma sanity_check_substring_witness :
  listdir Examples.fs "./sim2" = Some ["system.input.bak"] /\
  exists b,
    sanity_check Examples.fs Examples.plain "./sim2" = Ret b /\
    (b = true <->
     exists filename suffix,
       In filename ["system.input.bak"] /\
       In suffix (accepted_suffixes Examples.plain) /\
       PyStr.substring_of suffix filename).
Proof.
  split; [reflexivity|].
  apply (sanity_check_substring Examples.fs Examples.plain "./sim2").
  reflexivity.
Defined.

(** The suffix [.in] matches inside a name that does not end with it. *)
Example sanity_check_inside_name :
  sanity_check Examples.fs Examples.plain "./sim2" = Ret true.
Proof. reflexivity. Qed.



(** The directory without an input script is skipped, and the next one
    takes the next id. *)
Example init_processes_skips :
  option_map (map (fun kv => (fst kv, name (Proc (snd kv)))))
    (match init_processes Examples.fs Examples.plain "GPU" "run.lmp" with
     | Ret self' => queue self'
     | Raise _ => None
     end) = Some [(100%Z, "sim1"); (101%Z, "sim2")].
Proof. reflexivity. Qed.

(** Where the path of the job and the name of the input script are single
    words (not empty, no white space), the two commands are the ones of the
    specification. *)
Lemma commands_of_plain_words (sim_path input_filename : string) :
  PyStr.no_space sim_path -> sim_path <> "" ->
  PyStr.no_space input_filename -> input_filename <> "" ->
  cpu_command sim_path input_filename =
    ["mpirun"; "-np"; "4"; "-wdir"; sim_path; "lmp"; "-in"; input_filename] /\
  gpu_command sim_path input_filename =
    ["mpirun"; "-n"; "1"; "-wdir"; sim_path; "lmp"; "-k"; "on"; "g"; "1";
     "-sf"; "kk"; "-pk"; "kokkos"; "newton"; "on"; "neigh"; "half"; "-in";
     input_filename].
Proof.
  intros Hp Hp' Hf Hf'.
  assert (forall ws, Forall word ws -> PyStr.split (unwords ws) = ws) as E
    by exact split_unwords.
  split.
  - change (cpu_command sim_path input_filename)
      with (PyStr.split (unwords ["mpirun"; "-np"; "4"; "-wdir"; sim_path;
                                  "lmp"; "-in"; input_filename])).
    apply E.
    repeat (apply Forall_cons;
            [first [now split | apply wordb_word; reflexivity]|]).
    apply Forall_nil.
  - change (gpu_command sim_path input_filename)
      with (PyStr.split
              (unwords ["mpirun"; "-n"; "1"; "-wdir"; sim_path; "lmp"; "-k";
                        "on"; "g"; "1"; "-sf"; "kk"; "-pk"; "kokkos";
                        "newton"; "on"; "neigh"; "half"; "-in";
                        input_filename])).
    apply E.
    repeat (apply Forall_cons;
            [first [now split | apply wordb_word; reflexivity]|]).
    apply Forall_nil.
Qed.

(** C3, at a job directory whose name has a space: the path of the job is
    [./my sim], and the command built for it has the two words [./my] and
    [sim] after [-wdir], not the path. *)
Theorem cpu_command_splits_path :
  exists self' e,
    init_processes Examples.fs Examples.spaced "CPU" "run.lmp" = Ret self' /\
    queue self' = Some [(100%Z, e)] /\
    path (Proc e) = "./my sim" /\
    command (Proc e) =
      Some ["mpirun"; "-np"; "4"; "-wdir"; "./my"; "sim"; "lmp"; "-in";
            "run.lmp"].
Proof. do 2 eexists. repeat split. Qed.

(** C10. When the value given for [add_suffixes] is a string [s], each
    character of [s] becomes an accepted suffix of its own, once, after the
    two built-in ones; [sanity_check] then accepts every directory that
    has a file name containing one of these characters. *)
Theorem string_suffixes_are_characters (fs : filesystem)
    (root_dir : string) (sim_dir_list : option (list string)) (update : Q)
    (s : string) (self : Qmighty) :
  Qmighty_init fs root_dir sim_dir_list update (Some (PyString s)) = Ret self ->
  (exists extra,
     accepted_suffixes self = ([".lmp"; ".in"] ++ extra)%list /\
     NoDup (accepted_suffixes self) /\
     forall x, In x extra <->
               exists c, In c (list_ascii_of_string s) /\
                         x = String c EmptyString) /\
  (forall d filenames filename c,
     listdir fs d = Some filenames -> In filename filenames ->
     In c (list_ascii_of_string s) ->
     PyStr.substring_of (String c EmptyString) filename ->
     sanity_check fs self d = Ret true).
Proof.
  unfold Qmighty_init, add_suffix. simpl iter. intros H.
  assert (accepted_suffixes self =
          add_suffix_loop [".lmp"; ".in"] (PyStr.chars s)) as Hacc.
  { destruct sim_dir_list as [l|]; simpl in H.
    - injection H as <-. reflexivity.
    - destruct (os_listdir fs root_dir); simpl in H; [|discriminate].
      injection H as <-. reflexivity. }
  clear H. split.
  - destruct (add_suffix_loop_extends (PyStr.chars s) [".lmp"; ".in"])
      as (extra & E & Hx).
    exists extra. rewrite Hacc. split; [exact E|]. split.
    + apply add_suffix_loop_NoDup. repeat constructor; simpl; intuition congruence.
    + intros x. rewrite <- chars_spec. split; [intros Hin; now apply Hx|].
      intros Hin.
      assert (In x (add_suffix_loop [".lmp"; ".in"] (PyStr.chars s))) as Hin'
        by (apply add_suffix_loop_complete; now right).
      rewrite E in Hin'. apply in_app_or in Hin' as [Hb | He]; [|exact He].
      apply chars_spec in Hin as (c & _ & ->).
      destruct Hb as [Hb | [Hb | []]]; discriminate.
  - intros d filenames filename c Hd Hf Hc Hs.
    destruct (sanity_check_substring fs self d Hd) as (b & -> & Hb).
    f_equal. apply Hb. exists filename, (String c EmptyString).
    repeat split; auto. rewrite Hacc.
    apply add_suffix_loop_complete. right. apply chars_spec. now exists c.
Qed.

Lemma string_suffixes_are_characters_witness :
  exists self,
    Qmighty_init Examples.fs "./" None 1%Q (Some (PyString "run.lmp")) =
      Ret self /\
    accepted_suffixes self =
      [".lmp"; ".in"; "r"; "u"; "n"; "."; "l"; "m"; "p"] /\
    (exists extra,
       accepted_suffixes self = ([".lmp"; ".in"] ++ extra)%list /\
       NoDup (accepted_suffixes self) /\
       forall x, In x extra <->
                 exists c, In c (list_ascii_of_string "run.lmp") /\
                           x = String c EmptyString) /\
    (forall d filenames filename c,
       listdir Examples.fs d = Some filenames -> In filename filenames ->
       In c (list_ascii_of_string "run.lmp") ->
       PyStr.substring_of (String c EmptyString) filename ->
       sanity_check Examples.fs self d = Ret true).
Proof.
  eexists. split; [reflexivity|]. split; [reflexivity|].
  apply (string_suffixes_are_characters Examples.fs "./" None 1%Q "run.lmp").
  reflexivity.
Defined.

(** With the input format at the place of [add_suffixes], as the script
    passes it, the directory that holds a text file only is accepted: its
    file name has a dot. *)
Example notes_accepted_by_dot :
  match Qmighty_init Examples.fs "./" None 1%Q (Some (PyString "run.lmp")) with
  | Ret self => sanity_check Examples.fs self "./notes"
  | Raise e => Raise e
  end = Ret true /\
  sanity_check Examples.fs Examples.plain "./notes" = Ret false.
Proof. split; reflexivity. Qed.


(** ** Facts about the queue as the run loop changes it *)

Section QueueFacts.

Lemma dict_get_update_same (q : dict) (id : Z) f (e : entry) :
  dict_get q id = Some e ->
  dict_get (update_process id f q) id =
  Some {| ID := ID e; Proc := f (Proc e) |}.
Proof.
  induction q as [|[k v] q IH]; simpl; [discriminate|].
  destruct (Z.eqb_spec k id) as [->|N]; simpl.
  - rewrite Z.eqb_refl. now intros [= ->].
  - destruct (Z.eqb_spec k id); [contradiction | exact IH].
Qed.

Lemma fixed_part_update (q : dict) (id : Z) f (e : entry) :
  dict_get q id = Some e -> same_fixed (Proc e) (f (Proc e)) ->
  fixed_part (update_process id f q) = fixed_part q.
Proof.
  intros Hg (H1 & H2 & H3 & H4).
  induction q as [|[k v] q IH]; simpl in *; [reflexivity|].
  destruct (Z.eqb_spec k id) as [->|N]; simpl.
  - injection Hg as ->. now rewrite H1, H2, H3, H4.
  - now rewrite IH.
Qed.

(** Jobs with the same fixed part are found under the same ids, with the
    same path, output file and command. *)
Lemma fixed_part_get (q q' : dict) (id : Z) (e : entry) :
  fixed_part q' = fixed_part q -> dict_get q id = Some e ->
  exists e', dict_get q' id = Some e' /\ same_fixed (Proc e) (Proc e').
Proof.
  revert q'; induction q as [|[k v] q IH]; intros [|[k' v'] q'];
    simpl; try discriminate.
  intros [= -> Hp Hn Ho Hc Hrest].
  destruct (Z.eqb_spec k id) as [->|N].
  - intros [= ->]. exists v'. repeat split; assumption.
  - intros Hg. now apply IH.
Qed.

Lemma fixed_part_keys (q q' : dict) :
  fixed_part q' = fixed_part q -> map fst q' = map fst q.
Proof.
  unfold fixed_part. intros H.
  apply (f_equal (map fst)) in H. now rewrite !map_map in H.
Qed.

End QueueFacts.

(** ** Facts about traces *)

Section TraceFacts.

Lemma polls_app (id : Z) (t t' : list event) :
  polls id (t ++ t') = (polls id t ++ polls id t')%list.
Proof.
  induction t as [|e t IH]; simpl; [reflexivity|].
  destruct e; simpl; try exact IH.
  destruct (id0 =? id)%Z; simpl; now rewrite IH.
Qed.

Lemma samples_app (id : Z) (t t' : list event) :
  samples id (t ++ t') = (samples id t ++ samples id t')%list.
Proof.
  induction t as [|e t IH]; simpl; [reflexivity|].
  destruct e; simpl; try exact IH.
  destruct (id0 =? id)%Z; simpl; now rewrite IH.
Qed.

Lemma launches_app (t t' : list event) :
  launches (t ++ t') = (launches t ++ launches t')%list.
Proof.
  induction t as [|e t IH]; simpl; [reflexivity|].
  destruct e; simpl; try exact IH. now rewrite IH.
Qed.

Lemma rows_quiet (id : Z) (q : dict) :
  polls id (rows q) = [] /\ samples id (rows q) = [] /\
  launches (rows q) = [].
Proof. induction q as [|kv q IH]; simpl; auto. Qed.

End TraceFacts.

Section MoreQueueFacts.

Lemma others_update (q : dict) (id : Z) f :
  others id (update_process id f q) = others id q.
Proof.
  unfold others. induction q as [|[k v] q IH]; simpl; [reflexivity|].
  destruct (Z.eqb_spec k id) as [->|N]; simpl.
  - now rewrite Z.eqb_refl.
  - destruct (Z.eqb_spec k id); [contradiction|]. simpl. now rewrite IH.
Qed.

Lemma statuses_update (q : dict) (id : Z) f (e : entry) :
  dict_get q id = Some e ->
  process (f (Proc e)) = process (Proc e) ->
  thread_started (f (Proc e)) = thread_started (Proc e) ->
  complete (f (Proc e)) = complete (Proc e) ->
  statuses (update_process id f q) = statuses q.
Proof.
  intros Hg H1 H2 H3.
  induction q as [|[k v] q IH]; simpl in *; [reflexivity|].
  destruct (Z.eqb_spec k id) as [->|N]; simpl.
  - injection Hg as ->. now rewrite H1, H2, H3.
  - now rewrite IH.
Qed.

Lemma others_get (q q' : dict) (id id' : Z) :
  others id q' = others id q -> id' <> id ->
  dict_get q' id' = dict_get q id'.
Proof.
  intros H N.
  assert (forall l, dict_get (others id l) id' = dict_get l id') as E.
  { induction l as [|[k v] l IH]; simpl; [reflexivity|].
    destruct (Z.eqb_spec k id) as [->|N']; simpl.
    - destruct (Z.eqb_spec id id'); [congruence | exact IH].
    - now rewrite IH. }
  now rewrite <- (E q'), H, E.
Qed.

Lemma same_fixed_refl (p : Process) : same_fixed p p.
Proof. repeat split. Qed.

Lemma same_fixed_trans (p1 p2 p3 : Process) :
  same_fixed p1 p2 -> same_fixed p2 p3 -> same_fixed p1 p3.
Proof.
  unfold same_fixed. intros (a & b & c & d) (a' & b' & c' & d').
  repeat split; congruence.
Qed.

Lemma timings_only_trans (id : Z) (s1 s2 s3 : state) :
  timings_only id s1 s2 -> timings_only id s2 s3 -> timings_only id s1 s3.
Proof.
  intros (n1 & f1 & q1 & q2 & A1 & A2 & A3 & A4 & A5 & A6)
         (n2 & f2 & q2' & q3 & B1 & B2 & B3 & B4 & B5 & B6).
  rewrite A2 in B1. injection B1 as <-.
  split; [congruence|]. split; [congruence|].
  exists q1, q3. repeat split; try congruence. auto.
Qed.

End MoreQueueFacts.

(** ** Facts about the times that can be shown *)

Section RangeFacts.

(** [round] gives an integer within half a unit, and leaves an integer as
    it is. *)
Lemma py_round_near (x : Q) :
  (x - (1 # 2) <= inject_Z (py_round x) <= x + (1 # 2))%Q /\
  forall k, (x == inject_Z k)%Q -> py_round x = k.
Proof.
  unfold py_round.
  pose proof (Qfloor_le x) as Hlo. pose proof (Qlt_floor x) as Hhi.
  rewrite inject_Z_plus in Hhi. change (inject_Z 1) with 1%Q in Hhi.
  split.
  - destruct (Qcompare_spec (x - inject_Z (Qfloor x)) (1 # 2)) as [E|L|G];
      [destruct (Z.even (Qfloor x))|..];
      rewrite ?inject_Z_plus; change (inject_Z 1) with 1%Q; lra.
  - intros k Hk.
    assert (Qfloor x = k) as Hf by (rewrite Hk; apply Qfloor_Z).
    rewrite Hf in *.
    destruct (Qcompare_spec (x - inject_Z k) (1 # 2)) as [E|L|G];
      [lra | reflexivity | lra].
Qed.

Lemma py_round_inject_Z (z : Z) : py_round (inject_Z z) = z.
Proof. apply py_round_near. reflexivity. Qed.

(** A number of seconds below 999999999 days in magnitude is accepted. *)
Lemma timedelta_ok_bound (z : Z) :
  (- 86399999913600 <= z <= 86399999913600)%Z -> timedelta_ok z = true.
Proof.
  intros [Hlo Hhi]. unfold timedelta_ok. apply Z.leb_le, Z.abs_le. split.
  - apply Z.div_le_lower_bound; lia.
  - apply Z.div_le_upper_bound; lia.
Qed.

(** A clock that gives whole seconds between two bounds close enough is
    steady. *)
Lemma steady_bounded (w : world) (f : nat -> Z) (lo hi : Z) :
  (forall i, clock w i = inject_Z (f i)) ->
  (forall i, (lo <= f i <= hi)%Z) ->
  (hi - lo <= 86399999913600)%Z ->
  steady w.
Proof.
  intros Hc Hb Hd i j. rewrite !Hc.
  assert (py_round (inject_Z (f j) - inject_Z (f i))%Q = (f j - f i)%Z) as ->.
  { apply py_round_near. unfold Qminus.
    now rewrite <- inject_Z_opp, <- inject_Z_plus. }
  apply timedelta_ok_bound.
  pose proof (Hb i). pose proof (Hb j). lia.
Qed.

Lemma showable_set_timings (p : Process) (elapsed remaining : Q) :
  timedelta_ok (py_round remaining) = true ->
  timedelta_ok (py_round elapsed) = true ->
  showable (set_timings p elapsed remaining) = true.
Proof. unfold showable. simpl. now intros -> ->. Qed.

Lemma showable_update (q : dict) (id : Z) f :
  showable_queue q = true ->
  (forall e, dict_get q id = Some e -> showable (f (Proc e)) = true) ->
  showable_queue (update_process id f q) = true.
Proof.
  induction q as [|[k v] q IH]; simpl; [reflexivity|].
  intros H Hf. apply andb_true_iff in H as [Hv Hq].
  destruct (Z.eqb_spec k id) as [->|N]; simpl.
  - rewrite Hq, Hf; [reflexivity | reflexivity].
  - rewrite Hv. simpl. apply IH; [exact Hq | exact Hf].
Qed.

Lemma showable_get (q : dict) (id : Z) (e : entry) :
  showable_queue q = true -> dict_get q id = Some e ->
  showable (Proc e) = true.
Proof.
  induction q as [|[k v] q IH]; simpl; [discriminate|].
  intros H. apply andb_true_iff in H as [Hv Hq].
  destruct (k =? id)%Z; [now intros [= <-] | now apply IH].
Qed.

End RangeFacts.

(** ** Facts about the steps of the run loop *)

Section StepFacts.

Variable w : world.

Lemma state_eta (s : state) :
  {| self := self s; reads := reads s; trace := trace s |} = s.
Proof. now destruct s. Qed.

Lemma logged_nil (s : state) : logged s [] = s.
Proof. unfold logged. rewrite app_nil_r. apply state_eta. Qed.

Lemma emit_run (e : event) (s : state) : emit e s = (Val tt, logged s [e]).
Proof. reflexivity. Qed.

Lemma for_each_emit {A} (f : A -> event) (l : list A) (s : state) :
  for_each l (fun x => emit (f x)) s = (Val tt, logged s (map f l)).
Proof.
  revert s; induction l as [|x l IH]; intros s; simpl.
  - now rewrite logged_nil.
  - unfold mbind. rewrite emit_run, IH. unfold logged; simpl.
    now rewrite <- app_assoc.
Qed.

(** A loop whose body prints one line for each item. *)
Lemma for_each_emits {A} (body : A -> M unit) (f : A -> event) (l : list A)
    (s : state) :
  (forall x s0, In x l -> body x s0 = (Val tt, logged s0 [f x])) ->
  for_each l body s = (Val tt, logged s (map f l)).
Proof.
  revert s; induction l as [|x l IH]; intros s H; simpl.
  - now rewrite logged_nil.
  - unfold mbind. rewrite H by now left.
    rewrite IH by (intros; apply H; now right).
    unfold logged; simpl. now rewrite <- app_assoc.
Qed.

Lemma time_sleep_run (secs : Q) (s : state) :
  sleep_ok secs = true -> time_sleep secs s = (Val tt, logged s [Sleep secs]).
Proof.
  unfold sleep_ok, time_sleep. intros H.
  apply andb_true_iff in H as [-> ->]. reflexivity.
Qed.

(** The rows of a queue whose times can all be shown. *)
Lemma for_each_rows (q : dict) (s : state) :
  showable_queue q = true ->
  for_each q (fun kv =>
    remaining <~ timedelta (py_round (remaining_time (Proc (snd kv)))) ;;
    elapsed <~ timedelta (py_round (elapsed_time (Proc (snd kv)))) ;;
    emit (Row (fst kv) (name (Proc (snd kv))) elapsed remaining)) s =
  (Val tt, logged s (rows q)).
Proof.
  intros H. unfold rows. apply for_each_emits.
  intros kv s0 Hin. unfold showable_queue in H.
  rewrite forallb_forall in H. specialize (H kv Hin).
  unfold showable in H. apply andb_true_iff in H as [Hr He].
  unfold mbind, timedelta. rewrite Hr, He. reflexivity.
Qed.

Lemma print_progress_run (s : state) (q : dict) (n : Z) :
  queue (self s) = Some q -> num_procs (self s) = Some n ->
  showable_queue q = true ->
  print_progress s =
  (Val tt, logged s (Clear (Some (n + 5)%Z) :: Header :: rows q)).
Proof.
  intros Hq Hn Hs.
  unfold print_progress, get_num_procs, clear_n_lines, get_queue.
  unfold mbind at 1. rewrite Hn. unfold mbind at 1. rewrite emit_run.
  unfold mbind at 1. rewrite emit_run. unfold mbind at 1.
  simpl self. rewrite Hq.
  rewrite for_each_rows by exact Hs. unfold logged; simpl.
  now rewrite <- !app_assoc.
Qed.

Lemma get_process_run (id : Z) (s : state) (q : dict) (e : entry) :
  queue (self s) = Some q -> dict_get q id = Some e ->
  get_process id s = (Val (Proc e), s).
Proof.
  intros Hq Hg. unfold get_process, mbind, get_queue. now rewrite Hq, Hg.
Qed.

Lemma last_item_snoc (xs : list data_point) (x : data_point) :
  last_item (xs ++ [x]) = Ret x.
Proof.
  induction xs as [|y xs IH]; [reflexivity|].
  simpl. destruct (xs ++ [x])%list eqn:E; [|exact IH].
  now destruct xs.
Qed.

(** One sample that finds a usable log: the clock is read once, the
    timings of the job are assigned, nothing else changes. *)
Lemma sample_run (id : Z) (t0 : Q) (k : nat) (s : state) (q : dict)
    (e : entry) :
  queue (self s) = Some q -> dict_get q id = Some e ->
  usable (log w id k) = true ->
  timedelta_ok (py_round (clock w (reads s) - t0)%Q) = true ->
  exists s' r,
    sample w id t0 k s = (Val tt, s') /\
    timings_only id s s' /\
    reads s' = S (reads s) /\
    trace s' = (trace s ++ [Sample id (clock w (reads s) - t0)%Q r])%list.
Proof.
  intros Hq Hg Hu Ht0. unfold sample, mbind.
  rewrite (get_process_run id s Hq Hg). unfold time_time.
  set (r := update_timings (Proc e) t0 (clock w (reads s)) (log w id k)).
  assert (snd r = None /\ same_fixed (Proc e) (fst r) /\
          process (fst r) = process (Proc e) /\
          thread_started (fst r) = thread_started (Proc e) /\
          complete (fst r) = complete (Proc e) /\
          elapsed_time (fst r) = (clock w (reads s) - t0)%Q /\
          showable (fst r) = true) as Hr.
  { subst r. unfold update_timings, usable in *.
    destruct (log w id k) as [| |xs]; simpl;
      try (repeat split; now apply showable_set_timings).
    destruct (last_item xs) as [[x| |]|]; try discriminate.
    simpl. repeat split. apply showable_set_timings; [|exact Ht0].
    now rewrite py_round_inject_Z. }
  destruct Hr as (Hn & Hf & Hp & Ht & Hc & He & Hs).
  unfold put_process, modify_self. simpl. rewrite Hn. rewrite emit_run.
  eexists _, _. split; [reflexivity|]. unfold logged; simpl.
  split; [|split; [reflexivity | now rewrite He]].
  split; [reflexivity|]. split; [reflexivity|].
  exists q, (update_process id (fun _ => fst r) q). simpl. rewrite Hq. simpl.
  repeat split.
  - now apply fixed_part_update with (e := e).
  - apply others_update.
  - now apply statuses_update with (e := e).
  - intros Hsq. apply showable_update; [exact Hsq | intros; exact Hs].
Qed.

End StepFacts.

(** ** The two ways a step passes on to the next *)

Lemma mbind_val {A B} (m : M A) (k : A -> M B) (s s' : state) (a : A) :
  m s = (Val a, s') -> mbind m k s = k a s'.
Proof. unfold mbind. now intros ->. Qed.

Lemma mbind_exc {A B} (m : M A) (k : A -> M B) (s s' : state) (e : exn) :
  m s = (Exc e, s') -> mbind m k s = (Exc e, s').
Proof. unfold mbind. now intros ->. Qed.

Arguments mbind_val {A B m} k {s s' a} _.
Arguments mbind_exc {A B m} k {s s' e} _.

Section LoopFacts.

Variable w : world.

Lemma is_alive_run (id : Z) (k n : nat) (s : state) :
  alive_polls w id = Some n ->
  is_alive w id k s = (Val (k <? n)%nat, logged s [Poll id (k <? n)%nat]).
Proof. unfold is_alive, mbind. now intros ->. Qed.

Lemma timings_only_get (id : Z) (s s' : state) (q : dict) (e : entry) :
  timings_only id s s' -> queue (self s) = Some q ->
  dict_get q id = Some e ->
  exists q' e', queue (self s') = Some q' /\ dict_get q' id = Some e' /\
                same_fixed (Proc e) (Proc e') /\
                (showable_queue q = true -> showable_queue q' = true).
Proof.
  intros (_ & _ & q0 & q' & A1 & A2 & A3 & _ & _ & A6) Hq Hg.
  rewrite Hq in A1. injection A1 as <-.
  destruct (fixed_part_get q q' id A3 Hg) as (e' & He' & Hf).
  now exists q', e'.
Qed.

Lemma rows_job_events (q : dict) : forallb job_event (rows q) = true.
Proof. induction q; simpl; auto. Qed.

(** The sampling loop of a job whose error stream ends after [n] more
    polls: [n] samples, each after a poll that finds the thread alive,
    then the poll that finds it dead, and nothing after it. *)
Lemma sample_loop_runs (id : Z) (t0 : Q) (n : nat) :
  forall (fuel k : nat) (s : state) (q : dict) (m : Z) (e : entry),
    alive_polls w id = Some (k + n)%nat -> (n < fuel)%nat ->
    (forall j, (j < k + n)%nat -> usable (log w id j) = true) ->
    (forall i, timedelta_ok (py_round (clock w i - t0)%Q) = true) ->
    sleep_ok (update_frequency (self s)) = true ->
    queue (self s) = Some q -> num_procs (self s) = Some m ->
    showable_queue q = true ->
    dict_get q id = Some e ->
    exists s' pre,
      sample_loop w fuel id t0 k s = (Val (S (k + n)), s') /\
      timings_only id s s' /\
      reads s' = (reads s + n)%nat /\
      trace s' = (trace s ++ pre ++ [Poll id false])%list /\
      polls id pre = repeat true n /\
      samples id pre =
        map (fun j => (clock w (reads s + j) - t0)%Q) (seq 0 n) /\
      launches pre = [] /\
      forallb job_event pre = true.
Proof.
  induction n as [|n IH]; intros fuel k s q m e Ha Hf Hu Ht0 Hsl Hq Hm Hs Hg;
    (destruct fuel as [|fuel]; [lia|]); simpl sample_loop;
    rewrite (mbind_val _ (is_alive_run id k s Ha)).
  - replace (k <? k + 0)%nat with false by (symmetry; apply Nat.ltb_ge; lia).
    exists (logged s [Poll id false]), []. unfold ret. simpl.
    rewrite Nat.add_0_r. repeat split; auto.
    exists q, q. auto 10.
  - replace (k <? k + S n)%nat with true by (symmetry; apply Nat.ltb_lt; lia).
    destruct (@sample_run w id t0 k (logged s [Poll id true]) q e)
      as (s1 & r & Hs1 & T1 & R1 & Tr1); auto.
    { apply Hu. lia. }
    rewrite (mbind_val _ Hs1).
    destruct (timings_only_get T1 Hq Hg) as (q1 & e1 & Hq1 & Hg1 & _ & Hs1q).
    specialize (Hs1q Hs).
    assert (num_procs (self s1) = Some m) as Hm1.
    { destruct T1 as (E & _). simpl in E. congruence. }
    assert (sleep_ok (update_frequency (self s1)) = true) as Hsl1.
    { destruct T1 as (_ & E & _). simpl in E. now rewrite E. }
    rewrite (mbind_val _ (print_progress_run s1 Hq1 Hm1 Hs1q)).
    unfold mbind at 1. cbv beta iota.
    rewrite (mbind_val _ (@time_sleep_run (update_frequency (self s1)) _ Hsl1)).
    set (s2 := logged s1 _). set (s3 := logged s2 _).
    destruct (IH fuel (S k) s3 q1 m e1) as
        (s' & pre & -> & T2 & R2 & Tr2 & P & Sm & L & J); auto.
    { rewrite Ha. f_equal. lia. }
    { lia. }
    { intros j Hj. apply Hu. lia. }
    exists s'.
    exists ((Poll id true :: Sample id (clock w (reads s) - t0)%Q r
             :: Clear (Some (m + 5)%Z) :: Header :: rows q1)
            ++ Sleep (update_frequency (self s1)) :: pre)%list.
    split; [do 2 f_equal; lia|].
    split; [apply (timings_only_trans T1 T2)|].
    split; [rewrite R2; subst s3 s2; simpl; rewrite R1; simpl; lia|].
    split.
    { rewrite Tr2. subst s3 s2. simpl. rewrite Tr1. simpl.
      repeat (rewrite <- app_assoc; simpl). reflexivity. }
    destruct (rows_quiet id q1) as (RP & RS & RL).
    simpl. rewrite Z.eqb_refl. rewrite polls_app, samples_app, launches_app.
    rewrite RP, RS, RL. simpl. rewrite P, Sm, L.
    rewrite forallb_app, rows_job_events. simpl. rewrite J.
    repeat split.
    rewrite Nat.add_0_r. f_equal. rewrite <- seq_shift, map_map.
    subst s3 s2. simpl. rewrite R1. simpl. apply map_ext. intros j.
    do 3 f_equal. lia.
Qed.

End LoopFacts.
Section SuperviseFacts.

Variable w : world.

Lemma statuses_get (q q' : dict) (id : Z) (e e' : entry) :
  fixed_part q' = fixed_part q -> statuses q' = statuses q ->
  dict_get q id = Some e -> dict_get q' id = Some e' ->
  process (Proc e') = process (Proc e) /\
  complete (Proc e') = complete (Proc e).
Proof.
  revert q'; induction q as [|[k v] q IH]; intros [|[k' v'] q'];
    simpl; try discriminate.
  intros [= -> _ _ _ _ Hrest] [= Hp _ Hc Hst].
  destruct (Z.eqb_spec k id) as [->|N].
  - intros [= ->] [= ->]. auto.
  - now apply IH.
Qed.

(** A launch that succeeds: the output file is opened, the command is
    started, the thread is started; the job has a [Popen] object with no
    return code. *)
Lemma spawn_thread_run (id : Z) (s : state) (q : dict) (e : entry)
    (cmd : list string) :
  queue (self s) = Some q -> dict_get q id = Some e ->
  can_open w (path_join (path (Proc e)) (outfile_name (Proc e))) = true ->
  command (Proc e) = Some cmd -> can_exec w cmd = true ->
  exists s' q' e',
    spawn_thread w id s = (Val tt, s') /\
    queue (self s') = Some q' /\ fixed_part q' = fixed_part q /\
    others id q' = others id q /\
    num_procs (self s') = num_procs (self s) /\
    update_frequency (self s') = update_frequency (self s) /\
    reads s' = reads s /\
    dict_get q' id = Some e' /\ same_fixed (Proc e) (Proc e') /\
    process (Proc e') = Some {| args := cmd; returncode := None |} /\
    trace s' =
      (trace s ++
       [Open (path_join (path (Proc e)) (outfile_name (Proc e)));
        Spawn cmd; ThreadStart])%list /\
    (showable_queue q = true -> showable_queue q' = true).
Proof.
  intros Hq Hg Ho Hc Hx. unfold spawn_thread.
  rewrite (mbind_val _ (get_process_run id s Hq Hg)).
  rewrite Ho, Hc, Hx.
  rewrite (mbind_val _ (emit_run _ _)), (mbind_val _ (emit_run _ _)).
  unfold put_process, modify_self, mbind. rewrite emit_run.
  set (po := {| args := cmd; returncode := None |}).
  eexists _, (update_process id (fun _ => set_spawned (Proc e) po) q), _.
  split; [reflexivity|]. simpl. rewrite Hq. simpl.
  split; [reflexivity|].
  split; [now apply fixed_part_update with (e := e)|].
  split; [apply others_update|].
  do 3 (split; [reflexivity|]).
  split; [exact (@dict_get_update_same q id (fun _ => set_spawned (Proc e) po) e Hg)|].
  simpl.
  split; [repeat split|]. split; [reflexivity|].
  split; [now rewrite <- !app_assoc|].
  intros Hs. apply showable_update; [exact Hs|].
  intros e0 Hg0. rewrite Hg in Hg0. injection Hg0 as <-.
  exact (showable_get q id Hs Hg).
Qed.

(** The supervision of a job that runs well. *)
Lemma supervise_runs (fuel : nat) (id : Z) (s : state) (q : dict) (m : Z)
    (e : entry) :
  steady w -> sleep_ok (update_frequency (self s)) = true ->
  queue (self s) = Some q -> num_procs (self s) = Some m ->
  showable_queue q = true ->
  dict_get q id = Some e -> runs_well w fuel (id, e) ->
  exists s' q' e' cmd n pre,
    supervise w fuel id s = (Val tt, s') /\
    queue (self s') = Some q' /\ fixed_part q' = fixed_part q /\
    others id q' = others id q /\
    num_procs (self s') = Some m /\
    reads s' = (reads s + 1 + n)%nat /\
    alive_polls w id = Some n /\ command (Proc e) = Some cmd /\
    dict_get q' id = Some e' /\
    process (Proc e') = Some {| args := cmd; returncode := None |} /\
    complete (Proc e') = true /\
    trace s' =
      (trace s ++
       [Open (path_join (path (Proc e)) (outfile_name (Proc e)));
        Spawn cmd; ThreadStart] ++ pre ++ [Poll id false; Poll id false])%list /\
    polls id pre = repeat true n /\
    samples id pre =
      map (fun j => (clock w (S (reads s) + j) - clock w (reads s))%Q)
          (seq 0 n) /\
    launches pre = [] /\
    forallb job_event pre = true /\
    update_frequency (self s') = update_frequency (self s) /\
    showable_queue q' = true.
Proof.
  intros Hst Hsl Hq Hm Hs Hg (Ho & (cmd & Hc & Hx) & (n & Ha & Hf & Hu)).
  simpl in Ho, Hc, Ha, Hu.
  unfold supervise.
  set (s0 := {| self := set_running id (self s); reads := reads s;
                trace := trace s |}).
  assert (modify_self (set_running id) s = (Val tt, s0)) as E0 by reflexivity.
  rewrite (mbind_val _ E0).
  destruct (@spawn_thread_run id s0 q e cmd)
    as (s1 & q1 & e1 & E1 & Hq1 & F1 & O1 & N1 & U1 & R1 & G1 & SF1 & P1 & T1
        & S1);
    auto.
  rewrite (mbind_val _ E1).
  unfold time_time at 1. unfold mbind at 1. cbv beta iota.
  set (s2 := {| self := self s1; reads := S (reads s1); trace := trace s1 |}).
  destruct (@sample_loop_runs w id (clock w (reads s1)) n fuel 0%nat s2 q1 m e1)
    as (s3 & pre & E3 & T3 & R3 & Tr3 & Pl & Sm & L & J); auto.
  { subst s2. simpl. rewrite U1. exact Hsl. }
  { subst s2. simpl. rewrite N1. exact Hm. }
  rewrite (mbind_val _ E3).
  destruct T3 as (N3 & U3 & q1' & q3 & A1 & Hq3 & F3 & O3 & St3 & S3).
  simpl in A1. rewrite Hq1 in A1. injection A1 as <-.
  destruct (fixed_part_get q1 q3 id F3 G1) as (e3 & G3 & SF3).
  rewrite (mbind_val _ (get_process_run id s3 Hq3 G3)).
  unfold put_process, modify_self. unfold mbind at 1. cbv beta iota.
  set (s4 := {| self := _; reads := reads s3; trace := trace s3 |}).
  assert (alive_polls w id = Some n) as Ha' by exact Ha.
  rewrite (mbind_val _ (is_alive_run w id (S (0 + n)) s4 Ha')).
  replace (S (0 + n) <? n)%nat with false
    by (symmetry; apply Nat.ltb_ge; lia).
  destruct (statuses_get q1 q3 id F3 St3 G1 G3) as (P3 & _).
  exists (logged s4 [Poll id false]),
         (update_process id (fun _ => set_complete (Proc e3)) q3),
         {| ID := ID e3; Proc := set_complete (Proc e3) |}, cmd, n, pre.
  split; [reflexivity|]. simpl. rewrite Hq3. simpl.
  split; [reflexivity|].
  split; [rewrite (fixed_part_update q3 id _ G3) by repeat split; congruence|].
  split; [rewrite others_update; congruence|].
  split; [subst s2 s0; simpl in *; congruence|].
  split; [rewrite R3; subst s2 s0; simpl in *; rewrite R1; lia|].
  split; [exact Ha|]. split; [exact Hc|].
  split; [exact (@dict_get_update_same q3 id (fun _ => set_complete (Proc e3)) e3 G3)|].
  split; [simpl; congruence|]. split; [reflexivity|].
  split.
  { rewrite Tr3. simpl. rewrite T1. simpl.
    repeat (rewrite <- app_assoc; simpl). reflexivity. }
  split; [exact Pl|].
  split; [rewrite Sm; simpl; rewrite R1; reflexivity|].
  split; [exact L|]. split; [exact J|].
  split; [subst s2 s0; simpl in *; congruence|].
  apply showable_update; [auto|].
  intros e0 Hg0. rewrite G3 in Hg0. injection Hg0 as <-.
  exact (showable_get q3 id (S3 (S1 Hs)) G3).
Qed.

End SuperviseFacts.
Section RunFacts.

Variable w : world.
Variable fuel : nat.

Lemma runs_well_same_fixed (id : Z) (e e' : entry) :
  same_fixed (Proc e) (Proc e') -> runs_well w fuel (id, e) ->
  runs_well w fuel (id, e').
Proof.
  unfold runs_well, same_fixed; simpl.
  intros (-> & _ & -> & ->) H. exact H.
Qed.

Lemma launch_fails_same_fixed (id : Z) (e e' : entry) :
  same_fixed (Proc e) (Proc e') -> launch_fails w (id, e) ->
  launch_fails w (id, e').
Proof.
  unfold launch_fails, same_fixed; simpl.
  intros (-> & _ & -> & ->) H. exact H.
Qed.

Lemma NoDup_dict_get (q : dict) (id : Z) (e : entry) :
  NoDup (map fst q) -> In (id, e) q -> dict_get q id = Some e.
Proof.
  induction q as [|[k v] q IH]; simpl; [intros _ []|].
  intros Hnd [[= -> ->] | Hin].
  - now rewrite Z.eqb_refl.
  - inversion Hnd as [|? ? Hk Hnd']; subst.
    destruct (Z.eqb_spec k id) as [->|N]; [|now apply IH].
    exfalso. apply Hk. now apply (in_map fst) in Hin.
Qed.

(** A launch that fails raises; the job is not started, and at most the
    output file was opened. *)
Lemma supervise_launch_fails (id : Z) (s : state) (q : dict) (e : entry) :
  queue (self s) = Some q -> dict_get q id = Some e ->
  launch_fails w (id, e) ->
  exists x s' new,
    supervise w fuel id s = (Exc (OSError x), s') /\
    trace s' = (trace s ++ new)%list /\
    launches new = [] /\ forallb job_event new = true.
Proof.
  intros Hq Hg Hf. unfold supervise.
  set (s0 := {| self := set_running id (self s); reads := reads s;
                trace := trace s |}).
  assert (modify_self (set_running id) s = (Val tt, s0)) as E0 by reflexivity.
  rewrite (mbind_val _ E0).
  assert (exists x s' new,
             spawn_thread w id s0 = (Exc (OSError x), s') /\
             trace s' = (trace s ++ new)%list /\
             launches new = [] /\ forallb job_event new = true)
    as (x & s' & new & E & T & L & J).
  { unfold spawn_thread.
    rewrite (mbind_val _ (get_process_run id s0 Hq Hg)).
    unfold launch_fails in Hf; simpl in Hf.
    destruct (can_open w _) eqn:Ho.
    - destruct Hf as [Hf | (cmd & Hc & Hx)]; [discriminate|].
      rewrite (mbind_val _ (emit_run _ _)), Hc, Hx.
      eexists _, _, [_]. split; [reflexivity|]. repeat split.
    - eexists _, _, []. split; [reflexivity|]. simpl.
      now rewrite app_nil_r. }
  exists x, s', new. rewrite (mbind_exc _ E). auto.
Qed.

Lemma for_each_app {A} (l1 l2 : list A) (body : A -> M unit) (s : state) :
  for_each (l1 ++ l2) body s =
  (for_each l1 body ;;; for_each l2 body) s.
Proof.
  revert s; induction l1 as [|x l1 IH]; intros s; simpl; [reflexivity|].
  unfold mbind in *. destruct (body x s) as [[[]| |] s1]; [|reflexivity..].
  apply IH.
Qed.

(** Jobs that run well are supervised one after the other, each launched
    once, in the order of the list. *)
Lemma for_each_runs (l : dict) :
  forall (s : state) (q : dict) (m : Z),
    steady w -> sleep_ok (update_frequency (self s)) = true ->
    queue (self s) = Some q -> num_procs (self s) = Some m ->
    showable_queue q = true ->
    (forall kv, In kv l ->
       exists e, dict_get q (fst kv) = Some e /\
                 same_fixed (Proc (snd kv)) (Proc e)) ->
    (forall kv, In kv l -> runs_well w fuel kv) ->
    exists s' q' new,
      for_each (map fst l) (supervise w fuel) s = (Val tt, s') /\
      queue (self s') = Some q' /\ fixed_part q' = fixed_part q /\
      num_procs (self s') = Some m /\
      trace s' = (trace s ++ new)%list /\
      launches new = commands_of l /\ forallb job_event new = true /\
      update_frequency (self s') = update_frequency (self s) /\
      showable_queue q' = true.
Proof.
  induction l as [|[id e0] l IH]; intros s q m Hst Hsl Hq Hm Hs Hl Hr.
  - exists s, q, []. simpl. rewrite app_nil_r. repeat split; auto.
  - destruct (Hl (id, e0)) as (e & Hg & SF); [now left|]. simpl in Hg, SF.
    assert (runs_well w fuel (id, e)) as Hre
      by (apply runs_well_same_fixed with (e := e0);
          [exact SF | apply Hr; now left]).
    destruct (@supervise_runs w fuel id s q m e Hst Hsl Hq Hm Hs Hg Hre)
      as (s1 & q1 & e1 & cmd & n & pre & E1 & Hq1 & F1 & _ & Hm1 & _ & _
          & Hc & _ & _ & _ & T1 & _ & _ & L1 & J1 & U1 & S1).
    destruct (IH s1 q1 m Hst) as
        (s' & q' & new & E & Hq' & F & Hm' & T & L & J & U & S');
      auto.
    { now rewrite U1. }
    { intros kv Hin. destruct (Hl kv) as (e' & Hg' & SF'); [now right|].
      destruct (fixed_part_get q q1 (fst kv) F1 Hg') as (e'' & Hg'' & SF'').
      exists e''. split; [exact Hg''|]. exact (same_fixed_trans SF' SF''). }
    { intros kv Hin. apply Hr. now right. }
    simpl map. simpl for_each. rewrite (mbind_val _ E1).
    exists s', q'.
    eexists. split; [exact E|]. split; [exact Hq'|].
    split; [congruence|]. split; [exact Hm'|].
    split; [rewrite T, T1, <- app_assoc; reflexivity|].
    assert (command (Proc e0) = Some cmd) as Hc0
      by (destruct SF as (_ & _ & _ & <-); exact Hc).
    simpl. rewrite !launches_app, L1, L. simpl. unfold commands_of at 2.
    simpl. rewrite Hc0. split; [reflexivity|].
    split; [rewrite !forallb_app, J1, J; reflexivity|].
    split; [congruence | exact S'].
Qed.


(** The state in which the loop over the jobs starts. *)
Lemma run_process_loop_unfold (s : state) (q : dict) :
  queue (self s) = Some q ->
  run_process_loop w fuel s =
  (for_each (map fst q) (supervise w fuel) ;;;
   t <~ time_time w ;;
   n <~ get_num_procs ;;
   if (n =? 0)%Z then emit NoJobsFound
   else emit (Summary n ((t - clock w (reads s)) / 3600)%Q))
    {| self := set_running 0 (self s); reads := S (reads s);
       trace := (trace s ++ [Clear None])%list |}.
Proof.
  intros Hq.
  unfold run_process_loop, modify_self, clear_n_lines, emit, time_time,
    get_queue.
  unfold mbind at 1 2 3 4. simpl. rewrite Hq. reflexivity.
Qed.

(** A queue whose jobs all run well is run to its end: every job is
    launched once, in order, and the last thing printed is the summary,
    or the diagnostic when [num_procs] is zero. *)
Lemma run_process_loop_runs (s : state) (q : dict) (m : Z) :
  steady w -> sleep_ok (update_frequency (self s)) = true ->
  queue (self s) = Some q -> num_procs (self s) = Some m ->
  showable_queue q = true ->
  NoDup (map fst q) ->
  (forall kv, In kv q -> runs_well w fuel kv) ->
  exists s' new hours,
    run_process_loop w fuel s = (Val tt, s') /\
    trace s' =
      (trace s ++ Clear None :: new ++
       [if (m =? 0)%Z then NoJobsFound else Summary m hours])%list /\
    launches new = commands_of q /\ forallb job_event new = true.
Proof.
  intros Hst Hsl Hq Hm Hs Hnd Hr.
  set (s0 := {| self := set_running 0 (self s); reads := S (reads s);
                trace := (trace s ++ [Clear None])%list |}).
  destruct (@for_each_runs q s0 q m)
    as (s1 & q1 & new & E & Hq1 & _ & Hm1 & T & L & J & _);
    auto.
  { intros [k v] Hin. exists v. split; [|apply same_fixed_refl].
    now apply NoDup_dict_get. }
  exists {| self := self s1; reads := S (reads s1);
            trace := (trace s1 ++
                      [if (m =? 0)%Z then NoJobsFound
                       else Summary m ((clock w (reads s1)
                                        - clock w (reads s)) / 3600)%Q])%list |},
         new, ((clock w (reads s1) - clock w (reads s)) / 3600)%Q.
  split.
  - rewrite (run_process_loop_unfold s Hq). fold s0.
    rewrite (mbind_val _ E).
    unfold time_time at 1. unfold mbind at 1. cbv beta iota.
    unfold get_num_procs. unfold mbind at 1. cbv beta iota. simpl self.
    rewrite Hm1. destruct (m =? 0)%Z; reflexivity.
  - simpl. rewrite T. simpl. rewrite <- !app_assoc. simpl. auto.
Qed.

End RunFacts.

(** ** The queue that [init_processes] builds can be shown *)

Lemma showable_dict_set (q : dict) (k : Z) (v : entry) :
  showable_queue q = true -> showable (Proc v) = true ->
  showable_queue (dict_set q k v) = true.
Proof.
  intros Hq Hv. induction q as [|[k' v'] q IH]; simpl in *.
  - now rewrite Hv.
  - apply andb_true_iff in Hq as [H1 H2].
    destruct (k' =? k)%Z; simpl.
    + now rewrite Hv, H2.
    + now rewrite H1, IH.
Qed.

Lemma init_loop_showable (fs : filesystem) (self : Qmighty)
    (computer input_filename : string) (dirs : list string) :
  forall (q : dict) (procID n : Z),
    showable_queue q = true ->
    showable_queue
      (fst (fst (init_loop fs self computer input_filename dirs q procID n)))
    = true.
Proof.
  induction dirs as [|d l IH]; intros q procID n Hq; simpl; [exact Hq|].
  destruct (sanity_check fs self _) as [ok|]; [|exact Hq].
  destruct ok; simpl; [|now apply IH].
  destruct (choose_command _ _ _) as [cmd|]; [|exact Hq].
  apply IH. now apply showable_dict_set.
Qed.

(** A state built on the object that [init_processes] returns is in range
    when [time.sleep] accepts the update frequency. *)
Lemma init_processes_in_range (fs : filesystem) (self0 self1 : Qmighty)
    (computer input_filename : string) (r : nat) (t : list event) :
  init_processes fs self0 computer input_filename = Ret self1 ->
  sleep_ok (update_frequency self0) = true ->
  in_range {| self := self1; reads := r; trace := t |}.
Proof.
  unfold init_processes, init_processes_call.
  destruct (negb _ && negb _); [discriminate|].
  pose proof (@init_loop_showable fs self0 computer input_filename
                (sim_dir_list self0) [] 100%Z 0%Z eq_refl) as Hs.
  destruct (init_loop _ _ _ _ _ _ _ _) as [[q n] [e|]]; [discriminate|].
  simpl in *. intros [= <-] Hsl. split; [exact Hsl|].
  simpl. now intros q0 [= <-].
Qed.

(** ** Increasing elapsed times *)

Lemma increasing_shift (c : Q) (l : list Q) :
  increasing (map (fun x => (x - c)%Q) l) <-> increasing l.
Proof.
  induction l as [|x l IH]; [reflexivity|].
  destruct l as [|y l]; [reflexivity|].
  change (((x - c < y - c)%Q /\ increasing (map (fun x => (x - c)%Q) (y :: l)))
          <-> ((x < y)%Q /\ increasing (y :: l))).
  rewrite IH. unfold Qminus. now rewrite Qplus_lt_l.
Qed.

(** ** The examples *)

Lemma calm_steady : steady Examples.calm.
Proof.
  apply steady_bounded
    with (f := fun n => Z.of_nat (Nat.min n 1000)) (lo := 0%Z) (hi := 1000%Z).
  - reflexivity.
  - intros i. lia.
  - lia.
Qed.

Lemma start_in_range : in_range Examples.start.
Proof.
  split; [vm_compute; reflexivity|].
  intros q H. vm_compute in H. injection H as <-. vm_compute. reflexivity.
Qed.

Lemma jobs_cases (kv : Z * entry) :
  In kv Examples.jobs ->
  kv = (100%Z, Examples.first_job) \/
  kv = (101%Z, snd (hd (0%Z, Examples.first_job) Examples.later_jobs)).
Proof.
  intros Hin. vm_compute in Hin. destruct Hin as [<- | [<- | []]];
    [left | right]; vm_compute; reflexivity.
Qed.

Lemma calm_runs_first : runs_well Examples.calm 5 (100%Z, Examples.first_job).
Proof.
  split; [vm_compute; reflexivity|]. split.
  - eexists. split; [vm_compute; reflexivity | reflexivity].
  - exists 2%nat. split; [reflexivity|]. split; [lia|].
    intros k _. vm_compute. reflexivity.
Qed.

Lemma calm_runs_well (kv : Z * entry) :
  In kv Examples.jobs -> runs_well Examples.calm 5 kv.
Proof.
  intros Hin. destruct (jobs_cases Hin) as [-> | ->];
    [exact calm_runs_first|].
  split; [vm_compute; reflexivity|]. split.
  - eexists. split; [vm_compute; reflexivity | reflexivity].
  - exists 1%nat. split; [reflexivity|]. split; [lia|].
    intros k _. vm_compute. reflexivity.
Qed.




(** ** Sampling *)

(** Where the log cannot be read or has no series, the remaining time is
    zero; where the last data point of the series is a number, the
    remaining time is that number, rounded. *)
Lemma update_timings_zero_or_last (p : Process) (t0 t1 : Q) :
  update_timings p t0 t1 LogRaises = (set_timings p (t1 - t0)%Q 0%Q, None) /\
  update_timings p t0 t1 LogNone = (set_timings p (t1 - t0)%Q 0%Q, None) /\
  forall xs x,
    update_timings p t0 t1 (LogData (xs ++ [Num x])) =
    (set_timings p (t1 - t0)%Q (inject_Z (py_round x)), None).
Proof.
  split; [reflexivity|]. split; [reflexivity|].
  intros xs x. unfold update_timings.
  now rewrite last_item_snoc.
Qed.

(** C4, at a log whose series of remaining times is empty: [update_timings]
    leaves with [IndexError], raised by the index outside the [try], and
    the exception ends the run. *)
Theorem update_timings_empty_series :
  (forall p t0 t1,
     snd (update_timings p t0 t1 (LogData [])) = Some IndexError) /\
  fst (run_process_loop Examples.empty_log 5 Examples.start) = Exc IndexError.
Proof. split; [intros p t0 t1; reflexivity | vm_compute; reflexivity]. Qed.

(** ** The run loop *)

Lemma increasing_map_seq (f : nat -> Q) (n b : nat) :
  (forall i, (f i < f (S i))%Q) -> increasing (map f (seq b n)).
Proof.
  intros Hf. revert b; induction n as [|n IH]; intros b; [exact I|].
  simpl. destruct n as [|n]; [exact I|].
  split; [apply Hf | apply (IH (S b))].
Qed.

(** C5, at the first job of the example queue: its supervision returns,
    and its process has not been reaped. *)
Lemma returns_without_reaping :
  ~ reaped_on_return Examples.calm 5 100 Examples.start.
Proof.
  intros H.
  assert (supervise Examples.calm 5 100 Examples.start =
          (Val tt, snd (supervise Examples.calm 5 100 Examples.start))) as E
    by (vm_compute; reflexivity).
  destruct (H _ E) as (q' & e' & Hq & Hg & Hr).
  vm_compute in Hq. injection Hq as <-.
  vm_compute in Hg. injection Hg as <-.
  discriminate Hr.
Qed.

(** C5, amended. For a job that runs well, in a state in range and under
    a steady clock (so that neither [time.sleep] nor [timedelta] nor
    [round] raises), the supervision of the job returns, and the loop goes
    on to the next job, only after a call of [is_alive] found the thread
    that drains the error stream of the job dead; the job was launched
    once; its process is never waited for, so that it is not reaped: its
    [Popen] object has no return code. *)
Theorem returns_after_thread_not_reaped (w : world) (fuel : nat) (id : Z)
    (s : state) (q : dict) (m : Z) (e : entry) :
  steady w -> in_range s ->
  queue (self s) = Some q -> num_procs (self s) = Some m ->
  dict_get q id = Some e -> runs_well w fuel (id, e) ->
  exists s' q' e' t cmd,
    supervise w fuel id s = (Val tt, s') /\
    trace s' = (trace s ++ t ++ [Poll id false])%list /\
    launches t = [cmd] /\ command (Proc e) = Some cmd /\
    queue (self s') = Some q' /\ dict_get q' id = Some e' /\
    complete (Proc e') = true /\
    process (Proc e') = Some {| args := cmd; returncode := None |} /\
    reaped (Proc e') = false.
Proof.
  intros Hst [Hsl Hs] Hq Hm Hg Hr.
  destruct (@supervise_runs w fuel id s q m e Hst Hsl Hq Hm (Hs q Hq) Hg Hr)
    as (s' & q' & e' & cmd & n & pre & E & Hq' & _ & _ & _ & _ & _ & Hc & Hg'
        & Hp & Hcm & T & _ & _ & L & _).
  exists s', q', e',
    ([Open (path_join (path (Proc e)) (outfile_name (Proc e))); Spawn cmd;
      ThreadStart] ++ pre ++ [Poll id false])%list, cmd.
  split; [exact E|].
  split; [rewrite T; simpl; now rewrite <- !app_assoc|].
  split; [simpl; now rewrite launches_app, L|].
  repeat (split; [assumption|]).
  unfold reaped. now rewrite Hp.
Qed.

Lemma returns_after_thread_not_reaped_witness :
  exists e,
    dict_get Examples.jobs 100 = Some e /\
    exists s' q' e' t cmd,
      supervise Examples.calm 5 100 Examples.start = (Val tt, s') /\
      trace s' = (trace Examples.start ++ t ++ [Poll 100 false])%list /\
      launches t = [cmd] /\ command (Proc e) = Some cmd /\
      queue (self s') = Some q' /\ dict_get q' 100 = Some e' /\
      complete (Proc e') = true /\
      process (Proc e') = Some {| args := cmd; returncode := None |} /\
      reaped (Proc e') = false.
Proof.
  exists Examples.first_job. split; [vm_compute; reflexivity|].
  apply (@returns_after_thread_not_reaped Examples.calm 5 100 Examples.start
           Examples.jobs 2 Examples.first_job).
  - exact calm_steady.
  - exact start_in_range.
  - vm_compute. reflexivity.
  - vm_compute. reflexivity.
  - vm_compute. reflexivity.
  - exact calm_runs_first.
Defined.

(** C6, at the first job of the example queue in three worlds.  Where the
    program exits before the first poll and a child holds its error stream
    open, the loop still takes two samples; where the program closes its
    error stream and runs on, the loop ends while it runs; under a clock
    that gives the same reading twice, the elapsed times of two samples are
    equal. *)
Lemma sampling_not_tied_to_process :
  ~ samples_while_process_runs Examples.lingering 5 100 Examples.start /\
  ~ samples_while_process_runs Examples.detached 5 100 Examples.start /\
  ~ samples_while_process_runs Examples.frozen 5 100 Examples.start.
Proof.
  split; [|split]; intros H.
  - assert (supervise Examples.lingering 5 100 Examples.start =
            (Val tt, snd (supervise Examples.lingering 5 100 Examples.start)))
      as E by (vm_compute; reflexivity).
    assert (trace (snd (supervise Examples.lingering 5 100 Examples.start)) =
            (trace Examples.start ++
             trace (snd (supervise Examples.lingering 5 100 Examples.start)))
            %list) as T by (vm_compute; reflexivity).
    destruct (H _ _ E T) as (n & Hp & Hl & _).
    vm_compute in Hp. injection Hp as <-.
    vm_compute in Hl. discriminate Hl.
  - assert (supervise Examples.detached 5 100 Examples.start =
            (Val tt, snd (supervise Examples.detached 5 100 Examples.start)))
      as E by (vm_compute; reflexivity).
    assert (trace (snd (supervise Examples.detached 5 100 Examples.start)) =
            (trace Examples.start ++
             trace (snd (supervise Examples.detached 5 100 Examples.start)))
            %list) as T by (vm_compute; reflexivity).
    destruct (H _ _ E T) as (n & Hp & _).
    vm_compute in Hp. discriminate Hp.
  - assert (supervise Examples.frozen 5 100 Examples.start =
            (Val tt, snd (supervise Examples.frozen 5 100 Examples.start)))
      as E by (vm_compute; reflexivity).
    assert (trace (snd (supervise Examples.frozen 5 100 Examples.start)) =
            (trace Examples.start ++
             trace (snd (supervise Examples.frozen 5 100 Examples.start)))
            %list) as T by (vm_compute; reflexivity).
    destruct (H _ _ E T) as (n & _ & _ & Hi).
    vm_compute in Hi. destruct Hi as [Hi _]. discriminate Hi.
Qed.

(** C6, amended. For a job that runs well, in a state in range and under
    a steady clock, the sampling loop ends at the first call of
    [process.thread.is_alive()] that finds the thread draining the error
    stream dead, whatever the program itself does: each call before it
    found the thread alive and was followed by one sample; the elapsed time
    of a sample is the reading of the clock at the sample less the reading
    at the start of the job, so that the elapsed times increase exactly
    when those readings do; after that call there is no sample and no
    table, only the second call of [is_alive] that the loop makes. *)
Theorem sampling_ends_with_thread (w : world) (fuel : nat) (id : Z)
    (s : state) (q : dict) (m : Z) (e : entry) :
  steady w -> in_range s ->
  queue (self s) = Some q -> num_procs (self s) = Some m ->
  dict_get q id = Some e -> runs_well w fuel (id, e) ->
  exists s' n cmd ticks,
    supervise w fuel id s = (Val tt, s') /\
    alive_polls w id = Some n /\
    trace s' =
      (trace s ++
       [Open (path_join (path (Proc e)) (outfile_name (Proc e)));
        Spawn cmd; ThreadStart] ++ ticks ++
       [Poll id false; Poll id false])%list /\
    polls id ticks = repeat true n /\
    samples id ticks =
      map (fun j => (clock w (S (reads s) + j) - clock w (reads s))%Q)
          (seq 0 n) /\
    (increasing (samples id ticks) <->
     increasing (map (fun j => clock w (S (reads s) + j)) (seq 0 n))).
Proof.
  intros Hst [Hsl Hs] Hq Hm Hg Hr.
  destruct (@supervise_runs w fuel id s q m e Hst Hsl Hq Hm (Hs q Hq) Hg Hr)
    as (s' & q' & e' & cmd & n & pre & E & _ & _ & _ & _ & _ & Ha & _ & _
        & _ & _ & T & P & Sm & _ & _).
  exists s', n, cmd, pre.
  repeat (split; [assumption|]).
  rewrite Sm.
  rewrite <- (map_map (fun j => clock w (S (reads s) + j))
                      (fun x => (x - clock w (reads s))%Q)).
  apply increasing_shift.
Qed.

Lemma sampling_ends_with_thread_witness :
  exists e,
    dict_get Examples.jobs 100 = Some e /\
    exists s' n cmd ticks,
      supervise Examples.calm 5 100 Examples.start = (Val tt, s') /\
      alive_polls Examples.calm 100 = Some n /\
      trace s' =
        (trace Examples.start ++
         [Open (path_join (path (Proc e)) (outfile_name (Proc e)));
          Spawn cmd; ThreadStart] ++ ticks ++
         [Poll 100 false; Poll 100 false])%list /\
      polls 100 ticks = repeat true n /\
      samples 100 ticks =
        map (fun j => (clock Examples.calm (S (reads Examples.start) + j)
                       - clock Examples.calm (reads Examples.start))%Q)
            (seq 0 n) /\
      (increasing (samples 100 ticks) <->
       increasing (map (fun j => clock Examples.calm
                                   (S (reads Examples.start) + j))
                       (seq 0 n))).
Proof.
  exists Examples.first_job. split; [vm_compute; reflexivity|].
  apply (@sampling_ends_with_thread Examples.calm 5 100 Examples.start
           Examples.jobs 2 Examples.first_job).
  - exact calm_steady.
  - exact start_in_range.
  - vm_compute. reflexivity.
  - vm_compute. reflexivity.
  - vm_compute. reflexivity.
  - exact calm_runs_first.
Defined.

(** The samples of the example run: one and two seconds. *)
Example samples_of_first_job :
  samples 100 (trace (snd (supervise Examples.calm 5 100 Examples.start))) =
  [1%Q; 2%Q].
Proof. vm_compute. reflexivity. Qed.

(** C7, at the example queue in a world without [mpirun]: the launch of
    the first job fails, the run ends with the exception, and the second
    job is not launched. *)
Lemma failed_launch_ends_run :
  ~ survives_failed_launch Examples.no_mpirun 5 Examples.start
      ["mpirun"; "-np"; "4"; "-wdir"; "./sim2"; "lmp"; "-in"; "run.lmp"].
Proof.
  intros (s' & E & _).
  assert (fst (run_process_loop Examples.no_mpirun 5 Examples.start) =
          Exc (OSError "mpirun")) as H by (vm_compute; reflexivity).
  rewrite E in H. discriminate H.
Qed.

(** C7, amended. Where the launch of a job fails and the jobs before it
    run well, in a state in range and under a steady clock, the run ends at
    that job with the exception of the launch: the jobs before it were
    launched, in order, no job after it is launched, and neither the
    summary nor the diagnostic is printed. *)
Theorem failed_launch_propagates (w : world) (fuel : nat) (s : state)
    (pre post : dict) (id : Z) (e : entry) (m : Z) :
  steady w -> in_range s ->
  queue (self s) = Some (pre ++ (id, e) :: post)%list ->
  num_procs (self s) = Some m ->
  NoDup (map fst (pre ++ (id, e) :: post)%list) ->
  (forall kv, In kv pre -> runs_well w fuel kv) ->
  launch_fails w (id, e) ->
  exists x s' new,
    run_process_loop w fuel s = (Exc (OSError x), s') /\
    trace s' = (trace s ++ Clear None :: new)%list /\
    launches new = commands_of pre /\ forallb job_event new = true.
Proof.
  intros Hst [Hsl Hs] Hq Hm Hnd Hr Hf.
  set (q := (pre ++ (id, e) :: post)%list) in *.
  set (s0 := {| self := set_running 0 (self s); reads := S (reads s);
                trace := (trace s ++ [Clear None])%list |}).
  destruct (@for_each_runs w fuel pre s0 q m)
    as (s1 & q1 & new & E & Hq1 & F1 & Hm1 & T & L & J & _); auto.
  { intros [k v] Hin. exists v. split; [|apply same_fixed_refl].
    apply NoDup_dict_get; [exact Hnd|]. apply in_or_app. now left. }
  assert (dict_get q id = Some e) as Hg.
  { apply NoDup_dict_get; [exact Hnd|]. apply in_or_app. right. now left. }
  destruct (fixed_part_get q q1 id F1 Hg) as (e1 & Hg1 & SF).
  destruct (@supervise_launch_fails w fuel id s1 q1 e1 Hq1 Hg1)
    as (x & s2 & new2 & E2 & T2 & L2 & J2).
  { now apply launch_fails_same_fixed with (e := e). }
  exists x, s2, (new ++ new2)%list.
  split.
  - rewrite (run_process_loop_unfold w fuel s Hq). fold s0.
    apply mbind_exc.
    subst q. rewrite map_app. simpl map. rewrite for_each_app.
    rewrite (mbind_val _ E). simpl for_each. now apply mbind_exc.
  - rewrite T2, T. simpl. rewrite <- !app_assoc. simpl.
    rewrite launches_app, forallb_app, L, L2, J, J2, app_nil_r. auto.
Qed.

Lemma failed_launch_propagates_witness :
  launch_fails Examples.no_mpirun (100%Z, Examples.first_job) /\
  exists x s' new,
    run_process_loop Examples.no_mpirun 5 Examples.start =
      (Exc (OSError x), s') /\
    trace s' = (trace Examples.start ++ Clear None :: new)%list /\
    launches new = commands_of [] /\ forallb job_event new = true.
Proof.
  assert (launch_fails Examples.no_mpirun (100%Z, Examples.first_job)) as Hf.
  { right. eexists. split; [vm_compute; reflexivity | reflexivity]. }
  split; [exact Hf|].
  apply (@failed_launch_propagates Examples.no_mpirun 5 Examples.start []
           Examples.later_jobs 100 Examples.first_job 2).
  - exact calm_steady.
  - exact start_in_range.
  - vm_compute. reflexivity.
  - vm_compute. reflexivity.
  - vm_compute. repeat constructor; simpl; intuition discriminate.
  - intros kv [].
  - exact Hf.
Defined.



(** The run of the example queue ends with the summary of its two jobs. *)
Example run_of_example_queue :
  exists s' new hours,
    run_process_loop Examples.calm 5 Examples.start = (Val tt, s') /\
    trace s' = (Clear None :: new ++ [Summary 2 hours])%list /\
    launches new = commands_of Examples.jobs.
Proof.
  destruct (@run_process_loop_runs Examples.calm 5 Examples.start
              Examples.jobs 2 calm_steady)
    as (s' & new & hours & E & T & L & _).
  - vm_compute. reflexivity.
  - vm_compute. reflexivity.
  - vm_compute. reflexivity.
  - vm_compute. reflexivity.
  - vm_compute. repeat constructor; simpl; intuition discriminate.
  - exact calm_runs_well.
  - exists s', new, hours. split; [exact E|]. split; [exact T | exact L].
Qed.

(** The run of a queue without jobs. *)
Example run_of_empty_queue :
  script Examples.calm "./" (Some ["notes"]) "zzz" "GPU" 1%Q 0 =
  (Val tt, [Clear None; NoJobsFound]).
Proof. vm_compute. reflexivity. Qed.

(** C9. For a [computer] that is neither [CPU] nor [GPU],
    [init_processes] raises [ValueError] whatever the object and the file
    system are, before it reads a directory or builds a command; the script
    then ends with an exception before anything is launched or printed. *)
Theorem invalid_computer_rejected (w : world) (self : Qmighty)
    (computer input_filename : string) :
  computer <> "CPU" -> computer <> "GPU" ->
  init_processes (files w) self computer input_filename =
    Raise (ValueError ("computer=" ++ computer ++ ", not 'CPU' or 'GPU'")) /\
  forall root_dir simulation_dir update fuel,
    exists e,
      script w root_dir simulation_dir input_filename computer update fuel =
      (Exc e, []).
Proof.
  intros Hc Hg.
  assert (forall o, init_processes (files w) o computer input_filename =
            Raise (ValueError ("computer=" ++ computer
                               ++ ", not 'CPU' or 'GPU'"))) as E.
  { intros o. unfold init_processes, init_processes_call.
    apply String.eqb_neq in Hc, Hg. now rewrite Hc, Hg. }
  split; [apply E|].
  intros root_dir simulation_dir update fuel. unfold script.
  destruct (Qmighty_init _ _ _ _ _) as [o|e]; simpl.
  - rewrite E. now eexists.
  - now exists e.
Qed.

Lemma invalid_computer_rejected_witness :
  "TPU" <> "CPU" /\ "TPU" <> "GPU" /\
  init_processes (files Examples.calm) Examples.plain "TPU" "run.lmp" =
    Raise (ValueError ("computer=" ++ "TPU" ++ ", not 'CPU' or 'GPU'")) /\
  forall root_dir simulation_dir update fuel,
    exists e,
      script Examples.calm root_dir simulation_dir "run.lmp" "TPU" update fuel
      = (Exc e, []).
Proof.
  split; [discriminate|]. split; [discriminate|].
  apply (@invalid_computer_rejected Examples.calm Examples.plain "TPU"
           "run.lmp"); discriminate.
Defined.


(** * Further properties of the code *)

(** ** Discovery of the candidate directories *)

Lemma scan_dirs_filter (fs : filesystem) (root : string) (names : list string) :
  scan_dirs fs root names =
  filter (fun d => isdir fs (path_join root d)) names.
Proof.
  induction names as [|d l IH]; simpl; [reflexivity|].
  destruct (isdir fs _); now rewrite IH.
Qed.

(** Without a list of simulation directories, the object takes the names
    in the root that are directories, in the order of the listing, and the
    construction raises when the root cannot be listed; a list given is
    taken as it is, whatever the names are. *)
Theorem discovery_keeps_directories (fs : filesystem) (root_dir : string)
    (update : Q) (add_suffixes : option iterable) :
  (forall names,
     listdir fs root_dir = Some names ->
     exists self,
       Qmighty_init fs root_dir None update add_suffixes = Ret self /\
       sim_dir_list self =
         filter (fun d => isdir fs (path_join root_dir d)) names) /\
  (listdir fs root_dir = None ->
   Qmighty_init fs root_dir None update add_suffixes =
     Raise (OSError root_dir)) /\
  (forall l,
     exists self,
       Qmighty_init fs root_dir (Some l) update add_suffixes = Ret self /\
       sim_dir_list self = l).
Proof.
  unfold Qmighty_init, os_listdir. split; [|split].
  - intros names ->. simpl. eexists. split; [reflexivity|]. simpl.
    apply scan_dirs_filter.
  - intros ->. reflexivity.
  - intros l. simpl. eexists. split; reflexivity.
Qed.

(** ** The accepted suffixes *)

Lemma add_suffix_loop_fixed (suffixes accepted : list string) :
  (forall x, In x suffixes -> In x accepted) ->
  add_suffix_loop accepted suffixes = accepted.
Proof.
  induction suffixes as [|s l IH]; intros H; simpl; [reflexivity|].
  replace (PyStr.mem s accepted) with true
    by (symmetry; apply mem_spec, H; now left).
  simpl. apply IH. intros x Hx. apply H. now right.
Qed.

(** Whatever is given for [add_suffixes], the accepted suffixes of a new
    object start with the two built-in ones, have no duplicate, and hold
    besides exactly the items given. *)
Theorem accepted_suffixes_of_new_object (fs : filesystem) (root_dir : string)
    (sim_dir_list : option (list string)) (update : Q)
    (add_suffixes : option iterable) (self : Qmighty) :
  Qmighty_init fs root_dir sim_dir_list update add_suffixes = Ret self ->
  exists extra,
    accepted_suffixes self = ([".lmp"; ".in"] ++ extra)%list /\
    NoDup (accepted_suffixes self) /\
    forall x,
      In x (accepted_suffixes self) <->
      x = ".lmp" \/ x = ".in" \/
      exists given, add_suffixes = Some given /\ In x (iter given).
Proof.
  intros H.
  assert (accepted_suffixes self =
          match add_suffixes with
          | Some given => add_suffix_loop [".lmp"; ".in"] (iter given)
          | None => [".lmp"; ".in"]
          end) as Hacc.
  { unfold Qmighty_init in H.
    destruct sim_dir_list as [l|]; simpl in H.
    - injection H as <-. now destruct add_suffixes.
    - destruct (os_listdir fs root_dir); simpl in H; [|discriminate].
      injection H as <-. now destruct add_suffixes. }
  rewrite Hacc. clear H Hacc.
  assert (NoDup [".lmp"; ".in"]) as Hnd
    by (repeat constructor; simpl; intuition discriminate).
  destruct add_suffixes as [given|].
  - destruct (add_suffix_loop_extends (iter given) [".lmp"; ".in"])
      as (extra & E & Hx).
    exists extra. split; [exact E|].
    split; [now apply add_suffix_loop_NoDup|].
    intros x. split.
    + rewrite E. intros Hin. apply in_app_or in Hin as [[<- | [<- | []]] | Hin];
        auto.
      right. right. exists given. split; [reflexivity | now apply Hx].
    + intros [-> | [-> | (g & [= <-] & Hin)]];
        apply add_suffix_loop_complete; simpl; auto.
  - exists []. split; [reflexivity|]. split; [exact Hnd|].
    intros x. simpl. split.
    + intros [<- | [<- | []]]; auto.
    + intros [-> | [-> | (g & Hg & _)]]; auto. discriminate.
Qed.

Lemma accepted_suffixes_of_new_object_witness :
  exists self,
    Qmighty_init Examples.fs "./" None 1%Q (Some (PyList [".inp"; ".in"])) =
      Ret self /\
    accepted_suffixes self = [".lmp"; ".in"; ".inp"] /\
    exists extra,
      accepted_suffixes self = ([".lmp"; ".in"] ++ extra)%list /\
      NoDup (accepted_suffixes self) /\
      forall x,
        In x (accepted_suffixes self) <->
        x = ".lmp" \/ x = ".in" \/
        exists given,
          Some (PyList [".inp"; ".in"]) = Some given /\ In x (iter given).
Proof.
  eexists. split; [reflexivity|]. split; [reflexivity|].
  apply (@accepted_suffixes_of_new_object Examples.fs "./" None 1%Q
           (Some (PyList [".inp"; ".in"]))).
  reflexivity.
Defined.

(** [add_suffix] never removes or reorders a suffix, and adding the same
    suffixes again changes nothing. *)
Theorem add_suffix_grows_once (accepted : list string) (suffixes : iterable) :
  (exists extra,
     add_suffix accepted suffixes = (accepted ++ extra)%list) /\
  add_suffix (add_suffix accepted suffixes) suffixes =
    add_suffix accepted suffixes.
Proof.
  unfold add_suffix. split.
  - destruct (add_suffix_loop_extends (iter suffixes) accepted)
      as (extra & E & _).
    now exists extra.
  - apply add_suffix_loop_fixed. intros x Hx.
    apply add_suffix_loop_complete. now right.
Qed.

(** ** The check of a directory *)

(** More accepted suffixes never turn an accepted directory into a
    rejected one. *)
Theorem sanity_check_monotone (fs : filesystem) (self self' : Qmighty)
    (suffixes : iterable) (sim_path : string) :
  accepted_suffixes self' = add_suffix (accepted_suffixes self) suffixes ->
  sanity_check fs self sim_path = Ret true ->
  sanity_check fs self' sim_path = Ret true.
Proof.
  unfold sanity_check, os_listdir. intros Hacc.
  destruct (listdir fs sim_path) as [names|]; simpl; [|discriminate].
  intros [= H]. f_equal.
  apply filename_loop_spec in H as (f & x & Hf & Hx & Hs).
  apply filename_loop_spec. exists f, x. repeat split; auto.
  rewrite Hacc. apply add_suffix_loop_complete. now left.
Qed.

Lemma sanity_check_monotone_witness :
  sanity_check Examples.fs Examples.plain "./sim1" = Ret true /\
  sanity_check Examples.fs Examples.with_txt "./sim1" = Ret true.
Proof.
  split; [reflexivity|].
  apply (@sanity_check_monotone Examples.fs Examples.plain Examples.with_txt
           (PyList [".txt"]) "./sim1"); reflexivity.
Defined.

(** An empty directory is rejected; with the empty string among the
    accepted suffixes, every directory that holds a name is accepted; a path
    that cannot be listed raises. *)
Theorem sanity_check_edges (fs : filesystem) (self : Qmighty)
    (sim_path : string) :
  (listdir fs sim_path = Some [] ->
   sanity_check fs self sim_path = Ret false) /\
  (forall name names,
     listdir fs sim_path = Some (name :: names) ->
     In "" (accepted_suffixes self) ->
     sanity_check fs self sim_path = Ret true) /\
  (listdir fs sim_path = None ->
   sanity_check fs self sim_path = Raise (OSError sim_path)).
Proof.
  unfold sanity_check, os_listdir. split; [|split].
  - intros ->. reflexivity.
  - intros name names -> Hin. unfold bind. cbv beta iota. f_equal.
    apply filename_loop_spec. exists name, "".
    repeat split; [now left | exact Hin |].
    exists "", name. reflexivity.
  - intros ->. reflexivity.
Qed.

(** ** The construction of the queue *)

Section InitFacts.

Variable fs : filesystem.
Variable self : Qmighty.
Variables computer input_filename : string.

Lemma init_loop_listable (dirs : list string) :
  forall (q : dict) (procID n : Z) (q' : dict) (n' : Z),
    init_loop fs self computer input_filename dirs q procID n =
      (q', n', None) ->
    forall d, In d dirs ->
              listdir fs (path_join (root_dir self) d) <> None.
Proof.
  induction dirs as [|d l IH]; intros q procID n q' n' H x Hx;
    [destruct Hx|].
  simpl in H. unfold sanity_check, os_listdir in H.
  destruct (listdir fs (path_join (root_dir self) d)) as [names|] eqn:E;
    simpl in H; [|discriminate].
  destruct Hx as [<- | Hx]; [congruence|].
  destruct (filename_loop _ names); simpl in H.
  - destruct (choose_command _ _ _); [|discriminate].
    now apply (IH _ _ _ _ _ H).
  - now apply (IH _ _ _ _ _ H).
Qed.

(** The loop stops with the exception of the first directory that cannot
    be listed, having queued the accepted directories before it. *)
Lemma init_loop_unlistable (pre post : list string) (d : string) :
  computer = "CPU" \/ computer = "GPU" ->
  (forall x, In x pre ->
             listdir fs (path_join (root_dir self) x) <> None) ->
  listdir fs (path_join (root_dir self) d) = None ->
  forall (q : dict) (procID n : Z),
    (forall kv, In kv q -> (fst kv < procID)%Z) ->
    init_loop fs self computer input_filename (pre ++ d :: post) q procID n =
    ((q ++ number_jobs (job_entry self computer input_filename) procID
             (filter (accepts fs self) pre))%list,
     (n + Z.of_nat (length (filter (accepts fs self) pre)))%Z,
     Some (OSError (path_join (root_dir self) d))).
Proof.
  intros Hc Hpre Hd.
  induction pre as [|x pre IH]; intros q procID n Hq; simpl.
  - unfold sanity_check, os_listdir. rewrite Hd. simpl.
    now rewrite app_nil_r, Z.add_0_r.
  - rewrite accepts_listed by (apply Hpre; now left). simpl.
    assert (forall y, In y pre ->
              listdir fs (path_join (root_dir self) y) <> None) as Hpre'
      by (intros y Hy; apply Hpre; now right).
    destruct (accepts fs self x); simpl.
    + rewrite (@choose_command_valid computer input_filename Hc).
      rewrite dict_set_fresh by exact Hq.
      rewrite (IH Hpre').
      * rewrite <- app_assoc. simpl. do 2 f_equal. lia.
      * intros kv Hin. apply in_app_or in Hin as [Hin | [<- | []]].
        -- specialize (Hq kv Hin). lia.
        -- simpl. lia.
    + now apply IH.
Qed.

Lemma init_loop_set_queue (q0 : dict) (n0 : Z) (dirs : list string) :
  forall (q : dict) (procID n : Z),
    init_loop fs (set_queue self q0 n0) computer input_filename dirs q
              procID n =
    init_loop fs self computer input_filename dirs q procID n.
Proof.
  induction dirs as [|d l IH]; intros q procID n; simpl; [reflexivity|].
  change (sanity_check fs (set_queue self q0 n0))
    with (sanity_check fs self).
  destruct (sanity_check fs self _) as [[|]|]; simpl; try reflexivity.
  - destruct (choose_command _ _ _); [apply IH | reflexivity].
  - apply IH.
Qed.

Lemma number_jobs_In mk (ds : list string) :
  forall (p k : Z) (e : entry),
    In (k, e) (number_jobs mk p ds) ->
    exists d, In d ds /\ e = mk k d /\
              (p <= k < p + Z.of_nat (length ds))%Z.
Proof.
  induction ds as [|d l IH]; intros p k e; simpl; [intros []|].
  intros [[= <- <-] | H].
  - exists d. split; [now left|]. split; [reflexivity | lia].
  - apply IH in H as (x & Hx & -> & Hk).
    exists x. split; [now right|]. split; [reflexivity | lia].
Qed.

End InitFacts.

Lemma init_processes_inv (fs : filesystem) (self self' : Qmighty)
    (computer input_filename : string) :
  init_processes fs self computer input_filename = Ret self' <->
  (computer = "CPU" \/ computer = "GPU") /\
  (forall d, In d (sim_dir_list self) ->
             listdir fs (path_join (root_dir self) d) <> None) /\
  self' =
    set_queue self
      (number_jobs (job_entry self computer input_filename) 100
         (filter (accepts fs self) (sim_dir_list self)))
      (Z.of_nat (length (filter (accepts fs self) (sim_dir_list self)))).
Proof.
  assert (forall (Hc : computer = "CPU" \/ computer = "GPU")
                 (Hl : forall d, In d (sim_dir_list self) ->
                         listdir fs (path_join (root_dir self) d) <> None),
            init_processes fs self computer input_filename =
            Ret (set_queue self
                   (number_jobs (job_entry self computer input_filename) 100
                      (filter (accepts fs self) (sim_dir_list self)))
                   (Z.of_nat (length (filter (accepts fs self)
                                             (sim_dir_list self))))))
    as Hok.
  { intros Hc Hl. unfold init_processes, init_processes_call.
    replace (negb (computer =? "CPU") && negb (computer =? "GPU")) with false
      by (destruct Hc as [-> | ->]; reflexivity).
    rewrite (@init_loop_spec fs self computer input_filename Hc)
      by (auto; intros ? []).
    simpl. now rewrite number_jobs_length. }
  split.
  - intros H.
    assert (computer = "CPU" \/ computer = "GPU") as Hc.
    { unfold init_processes, init_processes_call in H.
      destruct (String.eqb_spec computer "CPU"); [now left|].
      destruct (String.eqb_spec computer "GPU"); [now right|].
      discriminate. }
    assert (forall d, In d (sim_dir_list self) ->
              listdir fs (path_join (root_dir self) d) <> None) as Hl.
    { unfold init_processes, init_processes_call in H.
      destruct (negb _ && negb _); [discriminate|].
      destruct (init_loop _ _ _ _ _ _ _ _) as [[q' n'] [e|]] eqn:E;
        [discriminate|].
      exact (@init_loop_listable fs self computer input_filename _ _ _ _ _ _
                                 E). }
    split; [exact Hc|]. split; [exact Hl|].
    rewrite (Hok Hc Hl) in H. now injection H.
  - intros (Hc & Hl & ->). now apply Hok.
Qed.

(** [init_processes] returns exactly when the computer is [CPU] or [GPU]
    and every candidate directory can be listed; the queue is then the
    accepted directories under the ids from 100 on, and [num_procs] their
    number. *)
Theorem init_processes_returns_iff (fs : filesystem) (self self' : Qmighty)
    (computer input_filename : string) :
  init_processes fs self computer input_filename = Ret self' <->
  (computer = "CPU" \/ computer = "GPU") /\
  (forall d, In d (sim_dir_list self) ->
             listdir fs (path_join (root_dir self) d) <> None) /\
  self' =
    set_queue self
      (number_jobs (job_entry self computer input_filename) 100
         (filter (accepts fs self) (sim_dir_list self)))
      (Z.of_nat (length (filter (accepts fs self) (sim_dir_list self)))).
Proof. apply init_processes_inv. Qed.

(** A candidate directory that cannot be listed, as a name given by hand
    that does not exist, makes [init_processes] raise the exception of the
    listing, whatever the directories after it hold.  The loop has by then
    queued the accepted directories before it: the call leaves on the
    object that part of the queue, under the ids from 100 on, and its
    count in [num_procs]. *)
Theorem init_processes_unlistable (fs : filesystem) (self : Qmighty)
    (computer input_filename : string) (pre post : list string)
    (d : string) :
  computer = "CPU" \/ computer = "GPU" ->
  sim_dir_list self = (pre ++ d :: post)%list ->
  (forall x, In x pre ->
             listdir fs (path_join (root_dir self) x) <> None) ->
  listdir fs (path_join (root_dir self) d) = None ->
  init_processes fs self computer input_filename =
    Raise (OSError (path_join (root_dir self) d)) /\
  init_processes_call fs self computer input_filename =
    (set_queue self
       (number_jobs (job_entry self computer input_filename) 100
          (filter (accepts fs self) pre))
       (Z.of_nat (length (filter (accepts fs self) pre))),
     Some (OSError (path_join (root_dir self) d))).
Proof.
  intros Hc Hd Hpre Hn.
  assert (init_processes_call fs self computer input_filename =
          (set_queue self
             (number_jobs (job_entry self computer input_filename) 100
                (filter (accepts fs self) pre))
             (Z.of_nat (length (filter (accepts fs self) pre))),
           Some (OSError (path_join (root_dir self) d)))) as E.
  { unfold init_processes_call.
    replace (negb (computer =? "CPU") && negb (computer =? "GPU")) with false
      by (destruct Hc as [-> | ->]; reflexivity).
    rewrite Hd, (@init_loop_unlistable fs self computer input_filename pre
                   post d Hc Hpre Hn [] 100%Z 0%Z) by (intros ? []).
    reflexivity. }
  split; [|exact E]. unfold init_processes. now rewrite E.
Qed.

Lemma init_processes_unlistable_witness :
  listdir Examples.fs (path_join (root_dir Examples.missing) "gone") = None /\
  init_processes Examples.fs Examples.missing "GPU" "run.lmp" =
    Raise (OSError (path_join (root_dir Examples.missing) "gone")) /\
  init_processes_call Examples.fs Examples.missing "GPU" "run.lmp" =
    (set_queue Examples.missing
       (number_jobs (job_entry Examples.missing "GPU" "run.lmp") 100
          (filter (accepts Examples.fs Examples.missing) ["sim1"]))
       (Z.of_nat (length (filter (accepts Examples.fs Examples.missing)
                                 ["sim1"]))),
     Some (OSError (path_join (root_dir Examples.missing) "gone"))).
Proof.
  split; [reflexivity|].
  apply (@init_processes_unlistable Examples.fs Examples.missing "GPU"
           "run.lmp" ["sim1"] ["sim2"] "gone").
  - now right.
  - reflexivity.
  - intros x [<- | []]. discriminate.
  - reflexivity.
Defined.

(** The object that the call leaves in the example: the job of [sim1]
    under the id 100, and one job counted. *)
Example queue_left_by_failed_call :
  option_map (map fst)
    (queue (fst (init_processes_call Examples.fs Examples.missing "GPU"
                                     "run.lmp"))) = Some [100%Z] /\
  num_procs (fst (init_processes_call Examples.fs Examples.missing "GPU"
                                      "run.lmp")) = Some 1%Z.
Proof. vm_compute. split; reflexivity. Qed.

(** The queue that the object already holds does not matter:
    [init_processes] starts from an empty queue and from the id 100 each
    time, so that building the queue again gives the same queue. *)
Theorem init_processes_replaces_queue (fs : filesystem) (self : Qmighty)
    (q : dict) (n : Z) (computer input_filename : string) :
  init_processes fs (set_queue self q n) computer input_filename =
  init_processes fs self computer input_filename.
Proof.
  unfold init_processes, init_processes_call.
  destruct (negb _ && negb _); [reflexivity|].
  change (sim_dir_list (set_queue self q n)) with (sim_dir_list self).
  rewrite init_loop_set_queue.
  now destruct (init_loop _ _ _ _ _ _ _ _) as [[q' n'] [e|]].
Qed.

(** Each job of a queue just built: its key is its [ID], between 100 and
    100 plus the number of jobs; its name is a candidate directory that
    passes [sanity_check] and its path is the root joined with it; it
    writes to [qmighty-out.txt]; its times are zero; it has its command, no
    process yet, and is not complete. *)
Theorem queued_jobs_are_fresh (fs : filesystem) (self self' : Qmighty)
    (computer input_filename : string) (q : dict) (k : Z) (e : entry) :
  init_processes fs self computer input_filename = Ret self' ->
  queue self' = Some q -> In (k, e) q ->
  ID e = k /\ (100 <= k < 100 + Z.of_nat (length q))%Z /\
  num_procs self' = Some (Z.of_nat (length q)) /\
  In (name (Proc e)) (sim_dir_list self) /\
  accepts fs self (name (Proc e)) = true /\
  path (Proc e) = path_join (root_dir self) (name (Proc e)) /\
  outfile_name (Proc e) = "qmighty-out.txt" /\
  elapsed_time (Proc e) = 0%Q /\ remaining_time (Proc e) = 0%Q /\
  command (Proc e) =
    Some (command_of computer input_filename (path (Proc e))) /\
  process (Proc e) = None /\ complete (Proc e) = false.
Proof.
  intros H Hq Hin.
  apply init_processes_inv in H as (_ & _ & ->).
  simpl in Hq. injection Hq as <-. rewrite number_jobs_length.
  apply number_jobs_In in Hin as (d & Hd & -> & Hk).
  apply filter_In in Hd as [Hd Ha].
  split; [reflexivity|]. split; [exact Hk|]. simpl. repeat split; auto.
Qed.

Lemma queued_jobs_are_fresh_witness :
  In (101%Z, snd (hd (0%Z, Examples.first_job) Examples.later_jobs))
     Examples.jobs /\
  name (Proc (snd (hd (0%Z, Examples.first_job) Examples.later_jobs))) =
    "sim2" /\
  (let e := snd (hd (0%Z, Examples.first_job) Examples.later_jobs) in
   ID e = 101%Z /\
   (100 <= 101 < 100 + Z.of_nat (length Examples.jobs))%Z /\
   num_procs Examples.queued = Some (Z.of_nat (length Examples.jobs)) /\
   In (name (Proc e)) (sim_dir_list Examples.plain) /\
   accepts Examples.fs Examples.plain (name (Proc e)) = true /\
   path (Proc e) = path_join (root_dir Examples.plain) (name (Proc e)) /\
   outfile_name (Proc e) = "qmighty-out.txt" /\
   elapsed_time (Proc e) = 0%Q /\ remaining_time (Proc e) = 0%Q /\
   command (Proc e) = Some (command_of "CPU" "run.lmp" (path (Proc e))) /\
   process (Proc e) = None /\ complete (Proc e) = false).
Proof.
  split; [vm_compute; auto|]. split; [vm_compute; reflexivity|].
  apply (@queued_jobs_are_fresh Examples.fs Examples.plain Examples.queued
           "CPU" "run.lmp" Examples.jobs).
  - vm_compute. reflexivity.
  - vm_compute. reflexivity.
  - vm_compute. auto.
Defined.

(** ** The commands *)

Section SplitFacts.

Lemma split_from_space (a b tok : string) (c : ascii) :
  PyStr.isspace c = true ->
  PyStr.split_from (a ++ String c b) tok =
  (PyStr.split_from a tok ++ PyStr.split_from b "")%list.
Proof.
  intros Hc. revert tok; induction a as [|x a IH]; intros tok; simpl.
  - rewrite Hc. now destruct (tok =? "").
  - destruct (PyStr.isspace x); [|apply IH].
    destruct (tok =? ""); simpl; now rewrite IH.
Qed.

Lemma split_app_space (a b : string) :
  PyStr.split (a ++ String " " b) = (PyStr.split a ++ PyStr.split b)%list.
Proof. now apply split_from_space. Qed.

Lemma in_chars_append (a b : string) (x : ascii) :
  In x (list_ascii_of_string (a ++ b)) <->
  In x (list_ascii_of_string a) \/ In x (list_ascii_of_string b).
Proof.
  induction a as [|y a IH]; simpl; [tauto|]. rewrite IH. tauto.
Qed.

(** Every token that [split] gives is a word. *)
Lemma split_from_words (s : string) :
  forall tok, PyStr.no_space tok -> Forall word (PyStr.split_from s tok).
Proof.
  assert (PyStr.no_space "") as Hnil by (intros c []).
  induction s as [|c s IH]; intros tok Htok; simpl.
  - destruct (String.eqb_spec tok ""); repeat constructor; assumption.
  - destruct (PyStr.isspace c) eqn:Hc.
    + destruct (String.eqb_spec tok ""); [now apply IH|].
      constructor; [now split | now apply IH].
    + apply IH. intros x Hx. apply in_chars_append in Hx as [Hx | [<- | []]];
        [now apply Htok | exact Hc].
Qed.

End SplitFacts.

(** The tokens of the two commands, for every path and every name of the
    input script: the fixed tokens, with the tokens of the path after
    [-wdir] and the tokens of the name after [-in]. *)
Theorem commands_tokens (sim_path input_filename : string) :
  cpu_command sim_path input_filename =
    (["mpirun"; "-np"; "4"; "-wdir"] ++ PyStr.split sim_path ++
     ["lmp"; "-in"] ++ PyStr.split input_filename)%list /\
  gpu_command sim_path input_filename =
    (["mpirun"; "-n"; "1"; "-wdir"] ++ PyStr.split sim_path ++
     ["lmp"; "-k"; "on"; "g"; "1"; "-sf"; "kk"; "-pk"; "kokkos"; "newton";
      "on"; "neigh"; "half"; "-in"] ++ PyStr.split input_filename)%list.
Proof.
  split.
  - change (cpu_command sim_path input_filename)
      with (PyStr.split ("mpirun -np 4 -wdir" ++ String " "
              (sim_path ++ String " " ("lmp -in" ++ String " "
                 input_filename)))).
    rewrite !split_app_space. reflexivity.
  - change (gpu_command sim_path input_filename)
      with (PyStr.split ("mpirun -n 1 -wdir" ++ String " "
              (sim_path ++ String " "
                 ("lmp -k on g 1 -sf kk -pk kokkos newton on neigh half -in"
                  ++ String " " input_filename)))).
    rewrite !split_app_space. reflexivity.
Qed.

(** No token of a command is empty or has white space, and the first
    token is [mpirun]; so a path that has white space is never a token of
    the command built for it. *)
Theorem commands_are_words (computer input_filename sim_path : string) :
  Forall word (command_of computer input_filename sim_path) /\
  hd_error (command_of computer input_filename sim_path) = Some "mpirun" /\
  (~ PyStr.no_space sim_path ->
   ~ In sim_path (command_of computer input_filename sim_path)).
Proof.
  assert (Forall word (command_of computer input_filename sim_path)) as H.
  { unfold command_of, cpu_command, gpu_command, PyStr.split.
    destruct (computer =? "GPU"); apply split_from_words; intros c []. }
  split; [exact H|]. split.
  - unfold command_of. destruct (computer =? "GPU").
    + change (gpu_command sim_path input_filename)
        with (PyStr.split ("mpirun" ++ String " "
                ("-n 1 -wdir " ++ sim_path ++
                 " lmp -k on g 1 -sf kk -pk kokkos newton on neigh half -in "
                 ++ input_filename))).
      now rewrite split_app_space.
    + change (cpu_command sim_path input_filename)
        with (PyStr.split ("mpirun" ++ String " "
                ("-np 4 -wdir " ++ sim_path ++ " lmp -in "
                 ++ input_filename))).
      now rewrite split_app_space.
  - intros Hs Hin. apply Hs.
    rewrite Forall_forall in H. now destruct (H _ Hin).
Qed.

(** ** The table of progress *)

(** The loop over the rows stops at the first job with a time that
    [timedelta] refuses, the rows before it being printed. *)
Lemma for_each_rows_overflow (pre post : dict) (kv : Z * entry) (s : state) :
  showable_queue pre = true -> showable (Proc (snd kv)) = false ->
  for_each (pre ++ kv :: post)%list (fun kv =>
    remaining <~ timedelta (py_round (remaining_time (Proc (snd kv)))) ;;
    elapsed <~ timedelta (py_round (elapsed_time (Proc (snd kv)))) ;;
    emit (Row (fst kv) (name (Proc (snd kv))) elapsed remaining)) s =
  (Exc OverflowError, logged s (rows pre)).
Proof.
  intros Hpre Hkv. rewrite for_each_app.
  rewrite (mbind_val _ (@for_each_rows pre s Hpre)).
  simpl for_each. apply mbind_exc.
  unfold showable in Hkv. unfold mbind, timedelta.
  destruct (timedelta_ok (py_round (remaining_time (Proc (snd kv)))));
    [|reflexivity].
  simpl in Hkv. now rewrite Hkv.
Qed.

(** Once the queue is built, [print_progress] clears [num_procs + 5]
    lines and prints the head line and one row for each job, in the order
    of the queue, with the times rounded to seconds, provided that
    [timedelta] accepts the times of every job; it changes nothing else, so
    that printing twice prints the same table twice.  At the first job with
    a time that [timedelta] refuses it raises [OverflowError], the head
    line and the rows of the jobs before it being printed.  Before the
    queue is built it raises and prints nothing. *)
Theorem print_progress_table (s : state) :
  (forall q n,
     queue (self s) = Some q -> num_procs (self s) = Some n ->
     showable_queue q = true ->
     let table := Clear (Some (n + 5)%Z) :: Header :: rows q in
     print_progress s = (Val tt, logged s table) /\
     (print_progress ;;; print_progress) s =
       (Val tt, logged s (table ++ table)) /\
     length (rows q) = length q) /\
  (forall pre kv post n,
     queue (self s) = Some (pre ++ kv :: post)%list ->
     num_procs (self s) = Some n ->
     showable_queue pre = true -> showable (Proc (snd kv)) = false ->
     print_progress s =
       (Exc OverflowError,
        logged s (Clear (Some (n + 5)%Z) :: Header :: rows pre))) /\
  (num_procs (self s) = None ->
   print_progress s = (Exc (AttributeError "num_procs"), s)) /\
  (forall n,
     num_procs (self s) = Some n -> queue (self s) = None ->
     exists t, print_progress s = (Exc (AttributeError "queue"), logged s t)).
Proof.
  split; [|split; [|split]].
  - intros q n Hq Hn Hs table.
    assert (forall s0, queue (self s0) = Some q ->
              num_procs (self s0) = Some n ->
              print_progress s0 = (Val tt, logged s0 table)) as E
      by (intros s0 H1 H2; now apply print_progress_run).
    split; [now apply E|]. split.
    + rewrite (mbind_val _ (E s Hq Hn)).
      rewrite (E (logged s table)) by assumption.
      unfold logged. simpl. now rewrite <- app_assoc.
    + unfold rows. apply length_map.
  - intros pre kv post n Hq Hn Hpre Hkv.
    unfold print_progress, get_num_procs, clear_n_lines, get_queue.
    unfold mbind at 1. rewrite Hn. unfold mbind at 1. rewrite emit_run.
    unfold mbind at 1. rewrite emit_run. unfold mbind at 1.
    simpl self. rewrite Hq.
    rewrite for_each_rows_overflow by assumption. unfold logged; simpl.
    now rewrite <- !app_assoc.
  - intros Hn. unfold print_progress, mbind, get_num_procs. now rewrite Hn.
  - intros n Hn Hq.
    unfold print_progress, mbind, get_num_procs, clear_n_lines, get_queue.
    rewrite Hn. simpl. rewrite Hq. eexists [_; _]. unfold logged. simpl.
    now rewrite <- app_assoc.
Qed.

(** A job whose remaining time is beyond what [timedelta] accepts: the
    head line is printed, then the exception is raised. *)
Example table_of_a_distant_end :
  let far := set_timings Examples.first_job.(Proc) 0%Q
               (inject_Z 86400000000000) in
  let s := {| self := set_queue Examples.plain
                        [(100%Z, {| ID := 100; Proc := far |})] 1;
              reads := 0; trace := [] |} in
  print_progress s =
  (Exc OverflowError, logged s [Clear (Some 6%Z); Header]).
Proof. vm_compute. reflexivity. Qed.

(** ** One sample *)

Lemma last_item_inv (xs : list data_point) :
  (forall x, last_item xs = Ret x -> exists ys, xs = (ys ++ [x])%list) /\
  (forall e, last_item xs = Raise e -> xs = [] /\ e = IndexError).
Proof.
  induction xs as [|y xs [IH1 IH2]].
  - split; [discriminate | now intros e [= <-]].
  - destruct xs as [|z xs].
    + split; [intros x [= <-]; now exists [] | discriminate].
    + split.
      * intros x H. destruct (IH1 x H) as [ys ->]. now exists (y :: ys).
      * intros e H. destruct (IH2 e H) as [? _]. discriminate.
Qed.

(** [update_timings] returns exactly when the log gives no series or a
    series whose last data point is a number.  It raises in three cases
    only, all after the [try]: [IndexError] on an empty series,
    [ValueError] on a last data point that is not-a-number, [OverflowError]
    on one that is an infinity; the remaining time is then as before.  It
    assigns the elapsed time in every case, before it reads the log, and
    never touches anything but the two times. *)
Theorem update_timings_raises_iff (p : Process) (t0 t1 : Q)
    (reading : log_reading) :
  (snd (update_timings p t0 t1 reading) = None <-> readable reading = true) /\
  (forall e,
     snd (update_timings p t0 t1 reading) = Some e ->
     remaining_time (fst (update_timings p t0 t1 reading)) =
       remaining_time p /\
     exists xs,
       reading = LogData xs /\
       ((xs = [] /\ e = IndexError) \/
        (exists ys, xs = (ys ++ [NaN])%list /\
                    e = ValueError "cannot convert float NaN to integer") \/
        (exists ys b, xs = (ys ++ [Inf b])%list /\ e = OverflowError))) /\
  elapsed_time (fst (update_timings p t0 t1 reading)) = (t1 - t0)%Q /\
  same_fixed p (fst (update_timings p t0 t1 reading)) /\
  process (fst (update_timings p t0 t1 reading)) = process p /\
  complete (fst (update_timings p t0 t1 reading)) = complete p.
Proof.
  unfold update_timings, readable.
  destruct reading as [| |xs].
  - cbn [fst snd]. repeat split; auto; try congruence; try discriminate.
  - cbn [fst snd]. repeat split; auto; try congruence; try discriminate.
  - destruct (last_item_inv xs) as [I1 I2].
    destruct (last_item xs) as [[x| |b]|e0] eqn:L; cbn [bind round_point].
    + cbn [fst snd]. repeat split; auto; try congruence; try discriminate.
    + cbn [fst snd]. split; [split; discriminate|].
      split; [|repeat split].
      intros e [= <-]. split; [reflexivity|]. exists xs.
      split; [reflexivity|]. right. left.
      destruct (I1 _ eq_refl) as [ys ->]. now exists ys.
    + cbn [fst snd]. split; [split; discriminate|].
      split; [|repeat split].
      intros e [= <-]. split; [reflexivity|]. exists xs.
      split; [reflexivity|]. right. right.
      destruct (I1 _ eq_refl) as [ys ->]. now exists ys, b.
    + cbn [fst snd]. split; [split; discriminate|].
      split; [|repeat split].
      intros e [= <-]. split; [reflexivity|]. exists xs.
      split; [reflexivity|]. left. now apply I2.
Qed.

(** Where the last data point of the series is a number, [update_timings]
    returns, and the remaining time assigned is a whole number of seconds
    within half a second of it. *)
Theorem remaining_time_is_last_rounded (p : Process) (t0 t1 : Q)
    (xs : list data_point) (x : Q) :
  snd (update_timings p t0 t1 (LogData (xs ++ [Num x]))) = None /\
  exists z,
    remaining_time
      (fst (update_timings p t0 t1 (LogData (xs ++ [Num x])))) =
      inject_Z z /\
    (x - (1 # 2) <= inject_Z z <= x + (1 # 2))%Q /\
    forall k, (x == inject_Z k)%Q -> z = k.
Proof.
  destruct (update_timings_zero_or_last p t0 t1) as (_ & _ & E).
  rewrite E. split; [reflexivity|].
  exists (py_round x). split; [reflexivity|].
  apply py_round_near.
Qed.

(** ** The supervision of one job, and the jobs around it *)

(** The supervision of a job that runs well, in a state in range and under
    a steady clock, changes nothing of the other jobs, and nothing of what
    [init_processes] gave to any job: ids, names, paths, output files and
    commands. *)
Theorem supervision_leaves_other_jobs (w : world) (fuel : nat) (id : Z)
    (s : state) (q : dict) (m : Z) (e : entry) :
  steady w -> in_range s ->
  queue (self s) = Some q -> num_procs (self s) = Some m ->
  dict_get q id = Some e -> runs_well w fuel (id, e) ->
  exists s' q',
    supervise w fuel id s = (Val tt, s') /\
    queue (self s') = Some q' /\ num_procs (self s') = Some m /\
    map fst q' = map fst q /\ fixed_part q' = fixed_part q /\
    forall id', id' <> id -> dict_get q' id' = dict_get q id'.
Proof.
  intros Hst [Hsl Hs] Hq Hm Hg Hr.
  destruct (@supervise_runs w fuel id s q m e Hst Hsl Hq Hm (Hs q Hq) Hg Hr)
    as (s' & q' & _ & _ & _ & _ & E & Hq' & F & O & Hm' & _).
  exists s', q'. repeat (split; [assumption|]).
  split; [now apply fixed_part_keys|]. split; [exact F|].
  intros id' N. now apply others_get with (id := id).
Qed.

Lemma supervision_leaves_other_jobs_witness :
  exists e,
    dict_get Examples.jobs 100 = Some e /\
    exists s' q',
      supervise Examples.calm 5 100 Examples.start = (Val tt, s') /\
      queue (self s') = Some q' /\ num_procs (self s') = Some 2%Z /\
      map fst q' = map fst Examples.jobs /\
      fixed_part q' = fixed_part Examples.jobs /\
      forall id', id' <> 100%Z ->
                  dict_get q' id' = dict_get Examples.jobs id'.
Proof.
  exists Examples.first_job. split; [vm_compute; reflexivity|].
  apply (@supervision_leaves_other_jobs Examples.calm 5 100 Examples.start
           Examples.jobs 2 Examples.first_job).
  - exact calm_steady.
  - exact start_in_range.
  - vm_compute. reflexivity.
  - vm_compute. reflexivity.
  - vm_compute. reflexivity.
  - exact calm_runs_first.
Defined.

(** ** A job that never ends *)

Section Hung.

Variable w : world.

Lemma is_alive_at (id : Z) (k : nat) (s : state) :
  is_alive w id k s =
  (Val (alive_at w id k), logged s [Poll id (alive_at w id k)]).
Proof. reflexivity. Qed.

(** One turn of the sampling loop after a poll that found the thread
    alive: the sample, the table and the sleep. *)
Lemma tick_run (id : Z) (t0 : Q) (k : nat) (s : state) (q : dict) (m : Z)
    (e : entry) :
  usable (log w id k) = true ->
  timedelta_ok (py_round (clock w (reads s) - t0)%Q) = true ->
  sleep_ok (update_frequency (self s)) = true ->
  queue (self s) = Some q -> num_procs (self s) = Some m ->
  showable_queue q = true -> dict_get q id = Some e ->
  exists s' q' e' r,
    forall A (rest : M A),
      (sample w id t0 k ;;;
       print_progress ;;;
       f <~ (fun s => (Val (update_frequency (self s)), s)) ;;
       time_sleep f ;;; rest) s = rest s' /\
    trace s' =
      (trace s ++
       Sample id (clock w (reads s) - t0)%Q r
       :: Clear (Some (m + 5)%Z) :: Header :: rows q'
       ++ [Sleep (update_frequency (self s))])%list /\
    reads s' = S (reads s) /\
    sleep_ok (update_frequency (self s')) = true /\
    queue (self s') = Some q' /\ num_procs (self s') = Some m /\
    showable_queue q' = true /\ dict_get q' id = Some e'.
Proof.
  intros Hu Ht0 Hsl Hq Hm Hs Hg.
  destruct (@sample_run w id t0 k s q e Hq Hg Hu Ht0)
    as (s1 & r & Hs1 & T1 & R1 & Tr1).
  destruct (timings_only_get T1 Hq Hg) as (q1 & e1 & Hq1 & Hg1 & _ & Hs1q).
  specialize (Hs1q Hs).
  assert (num_procs (self s1) = Some m) as Hm1
    by (destruct T1 as (E & _); congruence).
  assert (update_frequency (self s1) = update_frequency (self s)) as Hu1
    by (destruct T1 as (_ & E & _); exact E).
  assert (sleep_ok (update_frequency (self s1)) = true) as Hsl1
    by now rewrite Hu1.
  exists (logged (logged s1 (Clear (Some (m + 5)%Z) :: Header :: rows q1))
                 [Sleep (update_frequency (self s1))]), q1, e1, r.
  intros A rest. split.
  - rewrite (mbind_val _ Hs1).
    rewrite (mbind_val _ (print_progress_run s1 Hq1 Hm1 Hs1q)).
    unfold mbind at 1. cbv beta iota.
    now rewrite (mbind_val _ (@time_sleep_run (update_frequency (self s1)) _
                                              Hsl1)).
  - simpl. rewrite Tr1, Hu1. repeat (rewrite <- app_assoc; simpl).
    repeat split; assumption.
Qed.

(** As long as the thread is found alive and the log is usable, the loop
    goes on: it spends whatever fuel it is given. *)
Lemma sample_loop_spent (id : Z) (t0 : Q) (fuel : nat) :
  forall (k : nat) (s : state) (q : dict) (m : Z) (e : entry),
    (forall j, (k <= j < k + fuel)%nat -> alive_at w id j = true) ->
    (forall j, (k <= j < k + fuel)%nat -> usable (log w id j) = true) ->
    (forall i, timedelta_ok (py_round (clock w i - t0)%Q) = true) ->
    sleep_ok (update_frequency (self s)) = true ->
    queue (self s) = Some q -> num_procs (self s) = Some m ->
    showable_queue q = true ->
    dict_get q id = Some e ->
    exists s' pre,
      sample_loop w fuel id t0 k s = (Spent, s') /\
      trace s' = (trace s ++ pre)%list /\
      polls id pre = repeat true fuel /\
      length (samples id pre) = fuel /\
      launches pre = [] /\ forallb job_event pre = true.
Proof.
  induction fuel as [|fuel IH]; intros k s q m e Ha Hu Ht0 Hsl Hq Hm Hs Hg.
  - exists s, []. simpl. rewrite app_nil_r. repeat split; auto.
  - simpl sample_loop. rewrite (mbind_val _ (is_alive_at id k s)).
    rewrite Ha by lia.
    destruct (@tick_run id t0 k (logged s [Poll id true]) q m e)
      as (s3 & q1 & e1 & r & Hrun); auto.
    { apply Hu. lia. }
    destruct (Hrun nat (sample_loop w fuel id t0 (S k)))
      as (-> & Tr3 & R3 & Hsl3 & Hq3 & Hm3 & Hs3 & Hg3).
    destruct (IH (S k) s3 q1 m e1) as (s' & pre & -> & Tr & P & Sm & L & J);
      auto.
    { intros j Hj. apply Ha. lia. }
    { intros j Hj. apply Hu. lia. }
    exists s'.
    exists ((Poll id true :: Sample id (clock w (reads s) - t0)%Q r
             :: Clear (Some (m + 5)%Z) :: Header :: rows q1)
            ++ Sleep (update_frequency (self s)) :: pre)%list.
    split; [reflexivity|].
    split.
    { rewrite Tr, Tr3. simpl.
      repeat (rewrite <- app_assoc; simpl). reflexivity. }
    destruct (rows_quiet id q1) as (RP & RS & RL).
    simpl. rewrite Z.eqb_refl. rewrite polls_app, samples_app, launches_app.
    rewrite RP, RS, RL. simpl. rewrite P, Sm, L.
    rewrite forallb_app, rows_job_events. simpl. rewrite J.
    repeat split.
Qed.

(** The supervision of a job that starts and whose thread is alive at
    every poll is never over. *)
Lemma supervise_spent (fuel : nat) (id : Z) (s : state) (q : dict) (m : Z)
    (e : entry) (cmd : list string) :
  steady w -> sleep_ok (update_frequency (self s)) = true ->
  queue (self s) = Some q -> num_procs (self s) = Some m ->
  showable_queue q = true ->
  dict_get q id = Some e ->
  can_open w (path_join (path (Proc e)) (outfile_name (Proc e))) = true ->
  command (Proc e) = Some cmd -> can_exec w cmd = true ->
  (forall j, alive_at w id j = true) ->
  (forall j, usable (log w id j) = true) ->
  exists s' new,
    supervise w fuel id s = (Spent, s') /\
    trace s' = (trace s ++ new)%list /\
    launches new = [cmd] /\ forallb job_event new = true /\
    polls id new = repeat true fuel /\
    length (samples id new) = fuel.
Proof.
  intros Hst Hsl Hq Hm Hs Hg Ho Hc Hx Ha Hu. unfold supervise.
  set (s0 := {| self := set_running id (self s); reads := reads s;
                trace := trace s |}).
  assert (modify_self (set_running id) s = (Val tt, s0)) as E0 by reflexivity.
  rewrite (mbind_val _ E0).
  destruct (@spawn_thread_run w id s0 q e cmd)
    as (s1 & q1 & e1 & E1 & Hq1 & F1 & O1 & N1 & U1 & R1 & G1 & SF1 & P1 & T1
        & S1);
    auto.
  rewrite (mbind_val _ E1).
  unfold time_time at 1. unfold mbind at 1. cbv beta iota.
  set (s2 := {| self := self s1; reads := S (reads s1); trace := trace s1 |}).
  destruct (@sample_loop_spent id (clock w (reads s1)) fuel 0%nat s2 q1 m e1)
    as (s3 & pre & E3 & Tr3 & Pl & Sm & L & J); auto.
  { subst s2. simpl. rewrite U1. exact Hsl. }
  { subst s2. simpl. rewrite N1. exact Hm. }
  unfold mbind. rewrite E3.
  exists s3,
    ([Open (path_join (path (Proc e)) (outfile_name (Proc e))); Spawn cmd;
      ThreadStart] ++ pre)%list.
  split; [reflexivity|].
  split; [rewrite Tr3; simpl; rewrite T1; simpl;
          now rewrite <- app_assoc|].
  simpl. rewrite L, J, Pl, Sm. repeat split.
Qed.

End Hung.

(** No time limit and no cancellation: where the error stream of a job
    never ends, the jobs before it running well, in a state in range and
    under a steady clock, the run is still in the sampling loop of that job
    whatever fuel it is given; the job was launched, no job after it is,
    and nothing is reported. *)
Theorem hung_job_blocks_queue (w : world) (fuel : nat) (s : state)
    (pre post : dict) (id : Z) (e : entry) (m : Z) (cmd : list string) :
  steady w -> in_range s ->
  queue (self s) = Some (pre ++ (id, e) :: post)%list ->
  num_procs (self s) = Some m ->
  NoDup (map fst (pre ++ (id, e) :: post)%list) ->
  (forall kv, In kv pre -> runs_well w fuel kv) ->
  can_open w (path_join (path (Proc e)) (outfile_name (Proc e))) = true ->
  command (Proc e) = Some cmd -> can_exec w cmd = true ->
  alive_polls w id = None ->
  (forall k, usable (log w id k) = true) ->
  exists s' new,
    run_process_loop w fuel s = (Spent, s') /\
    trace s' = (trace s ++ Clear None :: new)%list /\
    launches new = (commands_of pre ++ [cmd])%list /\
    forallb job_event new = true.
Proof.
  intros Hst [Hsl Hs] Hq Hm Hnd Hr Ho Hc Hx Ha Hu.
  set (q := (pre ++ (id, e) :: post)%list) in *.
  set (s0 := {| self := set_running 0 (self s); reads := S (reads s);
                trace := (trace s ++ [Clear None])%list |}).
  destruct (@for_each_runs w fuel pre s0 q m)
    as (s1 & q1 & new & E & Hq1 & F1 & Hm1 & T & L & J & U1 & S1); auto.
  { intros [k v] Hin. exists v. split; [|apply same_fixed_refl].
    apply NoDup_dict_get; [exact Hnd|]. apply in_or_app. now left. }
  assert (dict_get q id = Some e) as Hg.
  { apply NoDup_dict_get; [exact Hnd|]. apply in_or_app. right. now left. }
  destruct (fixed_part_get q q1 id F1 Hg) as (e1 & Hg1 & SF).
  destruct SF as (Sp & _ & So & Sc).
  destruct (@supervise_spent w fuel id s1 q1 m e1 cmd)
    as (s2 & new2 & E2 & T2 & L2 & J2 & _); auto.
  { now rewrite U1. }
  { now rewrite Sp, So. }
  { congruence. }
  { intros j. unfold alive_at. now rewrite Ha. }
  exists s2, (new ++ new2)%list.
  split.
  - rewrite (run_process_loop_unfold w fuel s Hq). fold s0.
    subst q. rewrite map_app. simpl map.
    unfold mbind at 1. rewrite for_each_app.
    rewrite (mbind_val _ E). simpl for_each.
    unfold mbind at 1. now rewrite E2.
  - rewrite T2, T. simpl. rewrite <- !app_assoc. simpl.
    rewrite launches_app, forallb_app, L, L2, J, J2. auto.
Qed.

Lemma hung_job_blocks_queue_witness :
  alive_polls Examples.hung 101 = None /\
  exists s' new,
    run_process_loop Examples.hung 1000 Examples.start = (Spent, s') /\
    trace s' = (trace Examples.start ++ Clear None :: new)%list /\
    launches new =
      (commands_of [(100%Z, Examples.first_job)] ++
       [["mpirun"; "-np"; "4"; "-wdir"; "./sim2"; "lmp"; "-in";
         "run.lmp"]])%list /\
    forallb job_event new = true.
Proof.
  split; [reflexivity|].
  apply (@hung_job_blocks_queue Examples.hung 1000 Examples.start
           [(100%Z, Examples.first_job)] [] 101
           (snd (hd (0%Z, Examples.first_job) Examples.later_jobs)) 2).
  - exact calm_steady.
  - exact start_in_range.
  - vm_compute. reflexivity.
  - vm_compute. reflexivity.
  - vm_compute. repeat constructor; simpl; intuition discriminate.
  - intros kv [<- | []].
    split; [vm_compute; reflexivity|]. split.
    + eexists. split; [vm_compute; reflexivity | reflexivity].
    + exists 2%nat. split; [reflexivity|]. split; [lia|].
      intros k _. vm_compute. reflexivity.
  - reflexivity.
  - vm_compute. reflexivity.
  - reflexivity.
  - reflexivity.
  - intros k. reflexivity.
Defined.

(** ** The queue after a run *)

Section AfterRun.

Variable w : world.
Variable fuel : nat.

(** The supervision of the jobs of [l], which run well: each of them ends
    complete, launched with its command and with no return code; the jobs
    that are not in [l] are as before. *)
Lemma for_each_marks (l : dict) :
  forall (s : state) (q : dict) (m : Z),
    steady w -> sleep_ok (update_frequency (self s)) = true ->
    queue (self s) = Some q -> num_procs (self s) = Some m ->
    showable_queue q = true ->
    NoDup (map fst l) ->
    (forall kv, In kv l ->
       exists e, dict_get q (fst kv) = Some e /\
                 same_fixed (Proc (snd kv)) (Proc e)) ->
    (forall kv, In kv l -> runs_well w fuel kv) ->
    exists s' q',
      for_each (map fst l) (supervise w fuel) s = (Val tt, s') /\
      queue (self s') = Some q' /\ fixed_part q' = fixed_part q /\
      num_procs (self s') = Some m /\
      reads s' = (reads s + clock_reads w l)%nat /\
      (forall id, ~ In id (map fst l) -> dict_get q' id = dict_get q id) /\
      (forall kv, In kv l ->
         exists e' cmd,
           dict_get q' (fst kv) = Some e' /\
           command (Proc (snd kv)) = Some cmd /\
           process (Proc e') = Some {| args := cmd; returncode := None |} /\
           complete (Proc e') = true).
Proof.
  induction l as [|[id e0] l IH]; intros s q m Hst Hsl Hq Hm Hs Hnd Hl Hr.
  - exists s, q. simpl. repeat split; auto; try (unfold clock_reads; simpl; lia).
    all: intros kv [].
  - simpl in Hnd. inversion Hnd as [|? ? Hid Hnd']; subst.
    destruct (Hl (id, e0)) as (e & Hg & SF); [now left|]. simpl in Hg, SF.
    assert (runs_well w fuel (id, e)) as Hre
      by (apply runs_well_same_fixed with (e := e0);
          [exact SF | apply Hr; now left]).
    destruct (@supervise_runs w fuel id s q m e Hst Hsl Hq Hm Hs Hg Hre)
      as (s1 & q1 & e1 & cmd & n & pre & E1 & Hq1 & F1 & O1 & Hm1 & R1 & A1
          & Hc & G1 & P1 & C1 & _ & _ & _ & _ & _ & U1 & S1).
    destruct (IH s1 q1 m Hst)
      as (s' & q' & E & Hq' & F & Hm' & R & Hframe & Hmark); auto.
    { now rewrite U1. }
    { intros kv Hin. destruct (Hl kv) as (e' & Hg' & SF'); [now right|].
      destruct (fixed_part_get q q1 (fst kv) F1 Hg') as (e'' & Hg'' & SF'').
      exists e''. split; [exact Hg''|]. exact (same_fixed_trans SF' SF''). }
    { intros kv Hin. apply Hr. now right. }
    exists s', q'. simpl map. simpl for_each. rewrite (mbind_val _ E1).
    split; [exact E|]. split; [exact Hq'|]. split; [congruence|].
    split; [exact Hm'|].
    split; [rewrite R, R1; unfold clock_reads; simpl; rewrite A1; lia|].
    split.
    + intros id' Hn. simpl in Hn.
      rewrite Hframe by tauto. apply others_get with (id := id); [exact O1|].
      intros ->. tauto.
    + intros kv [<- | Hin]; [|now apply Hmark].
      exists e1, cmd. simpl.
      split; [rewrite Hframe by exact Hid; exact G1|].
      split; [destruct SF as (_ & _ & _ & <-); exact Hc|]. auto.
Qed.

End AfterRun.

(** After a run whose jobs all run well, in a state in range and under a
    steady clock, the queue has the same ids in the same order, every job
    is marked complete, and every job still holds the [Popen] object of its
    launch with no return code: no process is reaped before the script
    ends. *)
Theorem run_leaves_all_unreaped (w : world) (fuel : nat) (s : state)
    (q : dict) (m : Z) :
  steady w -> in_range s ->
  queue (self s) = Some q -> num_procs (self s) = Some m ->
  NoDup (map fst q) ->
  (forall kv, In kv q -> runs_well w fuel kv) ->
  exists s' q',
    run_process_loop w fuel s = (Val tt, s') /\
    queue (self s') = Some q' /\ map fst q' = map fst q /\
    forall k e',
      In (k, e') q' ->
      complete (Proc e') = true /\ reaped (Proc e') = false /\
      exists cmd, process (Proc e') =
                  Some {| args := cmd; returncode := None |}.
Proof.
  intros Hst [Hsl Hs] Hq Hm Hnd Hr.
  set (s0 := {| self := set_running 0 (self s); reads := S (reads s);
                trace := (trace s ++ [Clear None])%list |}).
  destruct (@for_each_marks w fuel q s0 q m)
    as (s1 & q1 & E & Hq1 & F & Hm1 & _ & _ & Hmark); auto.
  { intros [k v] Hin. exists v. split; [|apply same_fixed_refl].
    now apply NoDup_dict_get. }
  pose proof (fixed_part_keys _ _ F) as Hk.
  exists {| self := self s1; reads := S (reads s1);
            trace := (trace s1 ++
                      [if (m =? 0)%Z then NoJobsFound
                       else Summary m ((clock w (reads s1)
                                        - clock w (reads s)) / 3600)%Q])%list |},
         q1.
  split.
  - rewrite (run_process_loop_unfold w fuel s Hq). fold s0.
    rewrite (mbind_val _ E).
    unfold time_time at 1. unfold mbind at 1. cbv beta iota.
    unfold get_num_procs. unfold mbind at 1. cbv beta iota. simpl self.
    rewrite Hm1. destruct (m =? 0)%Z; reflexivity.
  - split; [exact Hq1|]. split; [exact Hk|].
    intros k e' Hin.
    assert (dict_get q1 k = Some e') as Hg
      by (apply NoDup_dict_get; [now rewrite Hk | exact Hin]).
    assert (In k (map fst q)) as Hkq
      by (rewrite <- Hk; apply (in_map fst) in Hin; exact Hin).
    apply in_map_iff in Hkq as (kv & <- & Hkv).
    destruct (Hmark kv Hkv) as (e'' & cmd & Hg' & _ & Hp & Hc).
    rewrite Hg in Hg'. injection Hg' as <-.
    split; [exact Hc|]. split; [unfold reaped; now rewrite Hp|].
    now exists cmd.
Qed.

Lemma run_leaves_all_unreaped_witness :
  queue (self Examples.start) = Some Examples.jobs /\
  exists s' q',
    run_process_loop Examples.calm 5 Examples.start = (Val tt, s') /\
    queue (self s') = Some q' /\ map fst q' = map fst Examples.jobs /\
    forall k e',
      In (k, e') q' ->
      complete (Proc e') = true /\ reaped (Proc e') = false /\
      exists cmd, process (Proc e') =
                  Some {| args := cmd; returncode := None |}.
Proof.
  split; [vm_compute; reflexivity|].
  apply (@run_leaves_all_unreaped Examples.calm 5 Examples.start
           Examples.jobs 2).
  - exact calm_steady.
  - exact start_in_range.
  - vm_compute. reflexivity.
  - vm_compute. reflexivity.
  - vm_compute. repeat constructor; simpl; intuition discriminate.
  - exact calm_runs_well.
Defined.

(** The time that the summary reports is the last reading of the clock
    less the first one, in hours; between the two the run reads the clock
    once at the start of each job and once for each sample.  The jobs run
    well, in a state in range and under a steady clock. *)
Theorem summary_reports_wall_clock (w : world) (fuel : nat) (s : state)
    (q : dict) (m : Z) :
  steady w -> in_range s ->
  queue (self s) = Some q -> num_procs (self s) = Some m ->
  NoDup (map fst q) ->
  (forall kv, In kv q -> runs_well w fuel kv) ->
  m <> 0%Z ->
  exists s' t,
    run_process_loop w fuel s = (Val tt, s') /\
    reads s' = (reads s + clock_reads w q + 2)%nat /\
    trace s' =
      (t ++ [Summary m ((clock w (reads s + clock_reads w q + 1)
                         - clock w (reads s)) / 3600)%Q])%list.
Proof.
  intros Hst [Hsl Hs] Hq Hm Hnd Hr Hm0.
  set (s0 := {| self := set_running 0 (self s); reads := S (reads s);
                trace := (trace s ++ [Clear None])%list |}).
  destruct (@for_each_marks w fuel q s0 q m)
    as (s1 & q1 & E & Hq1 & F & Hm1 & R & _ & _); auto.
  { intros [k v] Hin. exists v. split; [|apply same_fixed_refl].
    now apply NoDup_dict_get. }
  simpl in R.
  exists {| self := self s1; reads := S (reads s1);
            trace := (trace s1 ++
                      [Summary m ((clock w (reads s1)
                                   - clock w (reads s)) / 3600)%Q])%list |},
         (trace s1).
  split.
  - rewrite (run_process_loop_unfold w fuel s Hq). fold s0.
    rewrite (mbind_val _ E).
    unfold time_time at 1. unfold mbind at 1. cbv beta iota.
    unfold get_num_procs. unfold mbind at 1. cbv beta iota. simpl self.
    rewrite Hm1.
    replace (m =? 0)%Z with false by (symmetry; now apply Z.eqb_neq).
    reflexivity.
  - simpl. split; [lia|].
    now replace (reads s + clock_reads w q + 1)%nat with (reads s1) by lia.
Qed.

Lemma summary_reports_wall_clock_witness :
  clock_reads Examples.calm Examples.jobs = 5%nat /\
  exists s' t,
    run_process_loop Examples.calm 5 Examples.start = (Val tt, s') /\
    reads s' = (reads Examples.start
                + clock_reads Examples.calm Examples.jobs + 2)%nat /\
    trace s' =
      (t ++ [Summary 2
               ((clock Examples.calm
                   (reads Examples.start
                    + clock_reads Examples.calm Examples.jobs + 1)
                 - clock Examples.calm (reads Examples.start)) / 3600)%Q])%list.
Proof.
  split; [vm_compute; reflexivity|].
  apply (@summary_reports_wall_clock Examples.calm 5 Examples.start
           Examples.jobs 2).
  - exact calm_steady.
  - exact start_in_range.
  - vm_compute. reflexivity.
  - vm_compute. reflexivity.
  - vm_compute. repeat constructor; simpl; intuition discriminate.
  - exact calm_runs_well.
  - discriminate.
Defined.

(** ** A sample that raises *)

Section SampleRaises.

Variable w : world.

Lemma sample_raises (id : Z) (t0 : Q) (k : nat) (s : state) (q : dict)
    (e : entry) (x : exn) :
  queue (self s) = Some q -> dict_get q id = Some e ->
  reading_exn (log w id k) = Some x ->
  exists s',
    sample w id t0 k s = (Exc x, s') /\ trace s' = trace s.
Proof.
  intros Hq Hg Hl. unfold sample.
  rewrite (mbind_val _ (get_process_run id s Hq Hg)).
  unfold time_time at 1. unfold mbind at 1. cbv beta iota.
  unfold update_timings.
  destruct (log w id k) as [| |xs]; try discriminate.
  unfold reading_exn in Hl.
  destruct (x0 <- last_item xs ;; round_point x0) as [z|e0];
    [discriminate|].
  injection Hl as ->.
  unfold put_process, modify_self, mbind. cbn [fst snd]. unfold raise.
  eexists. split; reflexivity.
Qed.

(** The loop ends with the exception at the first sample that finds a log
    that [update_timings] cannot take, the thread being alive until
    then. *)
Lemma sample_loop_raises (id : Z) (t0 : Q) (x : exn) (n : nat) :
  forall (fuel k : nat) (s : state) (q : dict) (m : Z) (e : entry),
    (n < fuel)%nat ->
    (forall j, (k <= j <= k + n)%nat -> alive_at w id j = true) ->
    (forall j, (k <= j < k + n)%nat -> usable (log w id j) = true) ->
    reading_exn (log w id (k + n)) = Some x ->
    (forall i, timedelta_ok (py_round (clock w i - t0)%Q) = true) ->
    sleep_ok (update_frequency (self s)) = true ->
    queue (self s) = Some q -> num_procs (self s) = Some m ->
    showable_queue q = true ->
    dict_get q id = Some e ->
    exists s' pre,
      sample_loop w fuel id t0 k s = (Exc x, s') /\
      trace s' = (trace s ++ pre)%list /\
      launches pre = [] /\ forallb job_event pre = true /\
      length (samples id pre) = n.
Proof.
  induction n as [|n IH];
    intros fuel k s q m e Hf Ha Hu Hl Ht0 Hsl Hq Hm Hs Hg;
    (destruct fuel as [|fuel]; [lia|]); simpl sample_loop;
    rewrite (mbind_val _ (is_alive_at w id k s)); rewrite Ha by lia.
  - rewrite Nat.add_0_r in Hl.
    destruct (@sample_raises id t0 k (logged s [Poll id true]) q e x)
      as (s1 & E & T); auto.
    rewrite (mbind_exc _ E).
    exists s1, [Poll id true]. rewrite T. repeat split.
  - destruct (@tick_run w id t0 k (logged s [Poll id true]) q m e)
      as (s3 & q1 & e1 & r & Hrun); auto.
    { apply Hu. lia. }
    destruct (Hrun nat (sample_loop w fuel id t0 (S k)))
      as (-> & Tr3 & R3 & Hsl3 & Hq3 & Hm3 & Hs3 & Hg3).
    destruct (IH fuel (S k) s3 q1 m e1) as (s' & pre & -> & Tr & L & J & Sm);
      auto.
    { lia. }
    { intros j Hj. apply Ha. lia. }
    { intros j Hj. apply Hu. lia. }
    { now replace (S k + n)%nat with (k + S n)%nat by lia. }
    exists s'.
    exists ((Poll id true :: Sample id (clock w (reads s) - t0)%Q r
             :: Clear (Some (m + 5)%Z) :: Header :: rows q1)
            ++ Sleep (update_frequency (self s)) :: pre)%list.
    split; [reflexivity|].
    split.
    { rewrite Tr, Tr3. simpl.
      repeat (rewrite <- app_assoc; simpl). reflexivity. }
    destruct (rows_quiet id q1) as (RP & RS & RL).
    simpl. rewrite Z.eqb_refl. rewrite samples_app, launches_app.
    rewrite RS, RL. simpl. rewrite L, Sm.
    rewrite forallb_app, rows_job_events. simpl. rewrite J.
    repeat split.
Qed.

End SampleRaises.

(** Where a sample of a job finds a log that [update_timings] cannot take
    (an empty series, or a last data point that is not a number), the
    thread being alive and the earlier samples usable, the exception of
    [update_timings] leaves [run_process_loop]: the run ends in the middle
    of that job; no job after it is launched and nothing is reported.  The
    jobs before it run well, in a state in range and under a steady
    clock. *)
Theorem unreadable_log_ends_run (w : world) (fuel : nat) (s : state)
    (pre post : dict) (id : Z) (e : entry) (m : Z) (cmd : list string)
    (n : nat) (x : exn) :
  steady w -> in_range s ->
  queue (self s) = Some (pre ++ (id, e) :: post)%list ->
  num_procs (self s) = Some m ->
  NoDup (map fst (pre ++ (id, e) :: post)%list) ->
  (forall kv, In kv pre -> runs_well w fuel kv) ->
  can_open w (path_join (path (Proc e)) (outfile_name (Proc e))) = true ->
  command (Proc e) = Some cmd -> can_exec w cmd = true ->
  (n < fuel)%nat ->
  (forall j, (j <= n)%nat -> alive_at w id j = true) ->
  (forall j, (j < n)%nat -> usable (log w id j) = true) ->
  reading_exn (log w id n) = Some x ->
  exists s' new,
    run_process_loop w fuel s = (Exc x, s') /\
    trace s' = (trace s ++ Clear None :: new)%list /\
    launches new = (commands_of pre ++ [cmd])%list /\
    forallb job_event new = true.
Proof.
  intros Hst [Hsl Hs] Hq Hm Hnd Hr Ho Hc Hx Hf Ha Hu Hl.
  set (q := (pre ++ (id, e) :: post)%list) in *.
  set (s0 := {| self := set_running 0 (self s); reads := S (reads s);
                trace := (trace s ++ [Clear None])%list |}).
  destruct (@for_each_runs w fuel pre s0 q m)
    as (s1 & q1 & new & E & Hq1 & F1 & Hm1 & T & L & J & U1 & S1); auto.
  { intros [k v] Hin. exists v. split; [|apply same_fixed_refl].
    apply NoDup_dict_get; [exact Hnd|]. apply in_or_app. now left. }
  assert (dict_get q id = Some e) as Hg.
  { apply NoDup_dict_get; [exact Hnd|]. apply in_or_app. right. now left. }
  destruct (fixed_part_get q q1 id F1 Hg) as (e1 & Hg1 & SF).
  destruct SF as (Sp & _ & So & Sc).
  set (s1' := {| self := set_running id (self s1); reads := reads s1;
                 trace := trace s1 |}).
  destruct (@spawn_thread_run w id s1' q1 e1 cmd)
    as (s2 & q2 & e2 & E2 & Hq2 & F2 & O2 & N2 & U2 & R2 & G2 & SF2 & P2 & T2
        & S2);
    auto.
  { now rewrite Sp, So. }
  { congruence. }
  set (s3 := {| self := self s2; reads := S (reads s2); trace := trace s2 |}).
  destruct (@sample_loop_raises w id (clock w (reads s2)) x n fuel 0%nat s3 q2
              m e2)
    as (s4 & ticks & E4 & T4 & L4 & J4 & Sm4); auto.
  { intros j Hj. apply Ha. lia. }
  { intros j Hj. apply Hu. lia. }
  { subst s3 s1'. simpl. rewrite U2. simpl. rewrite U1. exact Hsl. }
  { subst s3. simpl. rewrite N2. exact Hm1. }
  exists s4,
    (new ++ Open (path_join (path (Proc e)) (outfile_name (Proc e)))
         :: Spawn cmd :: ThreadStart :: ticks)%list.
  split.
  - assert (supervise w fuel id s1 = (Exc x, s4)) as Es.
    { unfold supervise.
      assert (modify_self (set_running id) s1 = (Val tt, s1')) as E0
        by reflexivity.
      rewrite (mbind_val _ E0), (mbind_val _ E2).
      unfold time_time at 1. unfold mbind at 1. cbv beta iota. fold s3.
      now rewrite (mbind_exc _ E4). }
    rewrite (run_process_loop_unfold w fuel s Hq). fold s0.
    apply mbind_exc.
    subst q. rewrite map_app. simpl map. rewrite for_each_app.
    rewrite (mbind_val _ E). simpl for_each. now apply mbind_exc.
  - rewrite T4. subst s3. simpl. rewrite T2. subst s1'. simpl.
    rewrite T. simpl. rewrite Sp, So.
    repeat (rewrite <- app_assoc; simpl).
    split; [reflexivity|].
    rewrite launches_app, forallb_app, L, J. simpl.
    rewrite L4, J4. auto.
Qed.

Lemma unreadable_log_ends_run_witness :
  reading_exn (log Examples.empty_log 100 0) = Some IndexError /\
  exists s' new,
    run_process_loop Examples.empty_log 5 Examples.start =
      (Exc IndexError, s') /\
    trace s' = (trace Examples.start ++ Clear None :: new)%list /\
    launches new =
      (commands_of [] ++
       [["mpirun"; "-np"; "4"; "-wdir"; "./sim1"; "lmp"; "-in";
         "run.lmp"]])%list /\
    forallb job_event new = true.
Proof.
  split; [reflexivity|].
  apply (@unreadable_log_ends_run Examples.empty_log 5 Examples.start []
           Examples.later_jobs 100 Examples.first_job 2 _ 0).
  - exact calm_steady.
  - exact start_in_range.
  - vm_compute. reflexivity.
  - vm_compute. reflexivity.
  - vm_compute. repeat constructor; simpl; intuition discriminate.
  - intros kv [].
  - reflexivity.
  - vm_compute. reflexivity.
  - reflexivity.
  - lia.
  - intros j Hj. replace j with 0%nat by lia. reflexivity.
  - intros j Hj. lia.
  - reflexivity.
Defined.

(** The run of the example queue where the logs end in not-a-number: it
    ends at the first sample with the exception of [round]. *)
Example nan_ends_run :
  fst (run_process_loop Examples.nan_log 5 Examples.start) =
  Exc (ValueError "cannot convert float NaN to integer").
Proof. vm_compute. reflexivity. Qed.

(** ** The sleep between two samples *)



(** ** The script as a whole *)

Lemma commands_of_number_jobs (self : Qmighty)
    (computer input_filename : string) (ds : list string) :
  forall p,
    commands_of (number_jobs (job_entry self computer input_filename) p ds) =
    map (fun d => command_of computer input_filename
                    (path_join (root_dir self) d)) ds.
Proof.
  induction ds as [|d l IH]; intros p; [reflexivity|].
  unfold commands_of in *. simpl. now rewrite IH.
Qed.

Lemma Qmighty_init_root (fs : filesystem) (root : string)
    (sim : option (list string)) (update : Q) (suffixes : option iterable)
    (self : Qmighty) :
  Qmighty_init fs root sim update suffixes = Ret self ->
  root_dir self = root /\ update_frequency self = update.
Proof.
  unfold Qmighty_init. destruct sim as [l|]; simpl.
  - now intros [= <-].
  - destruct (os_listdir fs root); simpl; [|discriminate]. now intros [= <-].
Qed.

(** The three statements of the script together: where the object and the
    queue are built and the jobs run well, under a steady clock and with an
    update frequency that [time.sleep] accepts, the script ends normally
    and has launched, in the order of the candidate directories, one
    command for each directory that passes [sanity_check] with the suffixes
    of the object, and nothing else. *)
Theorem script_launches_accepted (w : world) (root_dir : string)
    (simulation_dir : option (list string)) (input_format computer : string)
    (update : Q) (fuel : nat) (self0 self1 : Qmighty) (q : dict) :
  steady w -> sleep_ok update = true ->
  Qmighty_init (files w) root_dir simulation_dir update
               (Some (PyString input_format)) = Ret self0 ->
  init_processes (files w) self0 computer input_format = Ret self1 ->
  queue self1 = Some q ->
  (forall kv, In kv q -> runs_well w fuel kv) ->
  exists t,
    script w root_dir simulation_dir input_format computer update fuel =
      (Val tt, t) /\
    launches t =
      map (fun d => command_of computer input_format (path_join root_dir d))
          (filter (accepts (files w) self0) (sim_dir_list self0)).
Proof.
  intros Hst Hsl H0 H1 Hq Hr.
  destruct (Qmighty_init_root _ _ _ _ _ H0) as [Hroot Hupd].
  assert (in_range {| self := self1; reads := 0; trace := [] |}) as [Hsl1 Hs1].
  { apply init_processes_in_range with (1 := H1). now rewrite Hupd. }
  destruct (init_processes_queue _ _ _ _ H1) as (q0 & Hs & Hnd & _).
  pose proof H1 as H1'. apply init_processes_inv in H1' as (_ & _ & Hs').
  assert (q = q0) as <- by (rewrite Hs in Hq; simpl in Hq; congruence).
  assert (q = number_jobs (job_entry self0 computer input_format) 100
                (filter (accepts (files w) self0) (sim_dir_list self0)))
    as Hjobs by (rewrite Hs' in Hq; simpl in Hq; congruence).
  destruct (@run_process_loop_runs w fuel
              {| self := self1; reads := 0; trace := [] |} q
              (Z.of_nat (length q)))
    as (s' & new & hours & E & T & L & J); auto.
  { rewrite Hs. reflexivity. }
  unfold script. rewrite H0. simpl bind. rewrite H1.
  rewrite E. simpl. eexists. split; [reflexivity|].
  rewrite T. simpl. rewrite launches_app, L.
  replace (launches [_]) with (@nil (list string))
    by (destruct (_ =? 0)%Z; reflexivity).
  rewrite app_nil_r, Hjobs, commands_of_number_jobs. now rewrite Hroot.
Qed.

Lemma script_launches_accepted_witness :
  exists self0,
    Qmighty_init (files Examples.calm) "./" None 1%Q
                 (Some (PyString "lmp")) = Ret self0 /\
    exists t,
      script Examples.calm "./" None "lmp" "CPU" 1%Q 5 = (Val tt, t) /\
      launches t =
        map (fun d => command_of "CPU" "lmp" (path_join "./" d))
            (filter (accepts (files Examples.calm) self0)
                    (sim_dir_list self0)).
Proof.
  eexists. split; [reflexivity|].
  eapply (@script_launches_accepted Examples.calm "./" None "lmp" "CPU" 1%Q 5).
  - exact calm_steady.
  - reflexivity.
  - reflexivity.
  - vm_compute. reflexivity.
  - vm_compute. reflexivity.
  - intros kv Hin. vm_compute in Hin.
    repeat (destruct Hin as [<- | Hin];
            [split; [vm_compute; reflexivity|];
             split; [eexists; split; [vm_compute; reflexivity | reflexivity]|];
             eexists; split; [reflexivity|]; split; [lia|];
             intros k _; vm_compute; reflexivity|]).
    destruct Hin.
Defined.

